(** * ARABIC-MANGA: the upload handler and its configuration

    A shallow embedding of [src/config.py] and [src/flask_app.py].

    - [Config] holds the constants and the supported-format sets.
    - [PyStr] holds the few Python string operations the handler uses.
    - [App] embeds [allowed_file], [process_file] and [upload_file] over an
      explicit world (temporary files, flashed messages, log, and the
      history of calls made to the external services).

    The OCR engine, the translator, the inpainter, the renderer, the
    container extractor and werkzeug's [secure_filename] are not part of
    the two files; they are taken as an arbitrary record of fallible
    functions.  The temporary directory is a finite map from names to
    contents: creating a file raises when its name is too long for the
    file system, writing a file always succeeds, reading or removing a
    file raises when the file is missing. *)

From Stdlib Require Import ZArith QArith Ascii DecimalString DecimalNat.
From stdpp Require Import base strings list gmap.

Local Open Scope string_scope.
Local Open Scope list_scope.

(** ** Python string operations used by the handler *)

Module PyStr.

(** [c.lower()] on the ASCII letters.  Python's [str.lower] is Unicode
    aware; on a UTF-8 encoded name it differs from this function only on
    non-ASCII characters, whose lower-case form is never a string of the
    allow-list (the one character that lowers to an ASCII letter is the
    Kelvin sign, and no allowed extension contains a [k]). *)
Definition lower_ascii (c : ascii) : ascii :=
  let n := nat_of_ascii c in
  if (65 <=? n)%nat && (n <=? 90)%nat then ascii_of_nat (n + 32) else c.

Fixpoint lower (s : string) : string :=
  match s with
  | EmptyString => EmptyString
  | String c s' => String (lower_ascii c) (lower s')
  end.

Definition is_dot (c : ascii) : bool := bool_decide (c = "."%char).

(** ['.' in s] *)
Fixpoint contains_dot (s : string) : bool :=
  match s with
  | EmptyString => false
  | String c s' => is_dot c || contains_dot s'
  end.

(** The split point of [s.rsplit('.', 1)]: the text before and after the
    LAST dot, or [None] when [s] has no dot. *)
Fixpoint rsplit_last_dot (s : string) : option (string * string) :=
  match s with
  | EmptyString => None
  | String c s' =>
      match rsplit_last_dot s' with
      | Some (h, t) => Some (String c h, t)
      | None => if is_dot c then Some (EmptyString, s') else None
      end
  end.

(** [s.rsplit('.', 1)]: a list of two strings, or the whole string alone
    when there is no dot. *)
Definition rsplit_dot (s : string) : list string :=
  match rsplit_last_dot s with
  | Some (h, t) => [h; t]
  | None => [s]
  end.

(** [s.rsplit('.', 1)[0]]: index 0 always exists. *)
Definition stem (s : string) : string :=
  match rsplit_last_dot s with
  | Some (h, _) => h
  | None => s
  end.

(** [str(n)] for a non-negative integer. *)
Definition str_of_nat (n : nat) : string :=
  NilZero.string_of_uint (Nat.to_uint n).

End PyStr.

(** ** [src/config.py] *)

Module Config.

(** File size limits. *)
Definition MAX_FILE_SIZE : Z := (200 * 1024 * 1024)%Z.
Definition MAX_BATCH_SIZE : Z := 50%Z.

(** OCR settings.  Python reads the literal [0.3] as the double nearest
    to three tenths; the constant is kept as the decimal literal that the
    source writes. *)
Definition OCR_CONFIDENCE_THRESHOLD : Q := (3 # 10)%Q.
Definition OCR_LANGUAGES : list string := ["en"; "ar"].

Definition TRANSLATION_SERVICE : string := "google".

(** Image processing settings. *)
Definition IMAGE_QUALITY : Z := 95%Z.
Definition MAX_IMAGE_DIMENSION : Z := 4096%Z.

(** Arabic text rendering settings ([FONT_SIZE_PADDING] is the literal
    [0.1]). *)
Definition MIN_FONT_SIZE : Z := 8%Z.
Definition MAX_FONT_SIZE : Z := 200%Z.
Definition FONT_SIZE_PADDING : Q := (1 # 10)%Q.

(** Supported file formats. *)
Definition SUPPORTED_IMAGE_FORMATS : gset string :=
  {[ ".png"; ".jpg"; ".jpeg"; ".webp"; ".bmp"; ".tiff"; ".gif" ]}.
Definition SUPPORTED_PDF_FORMATS : gset string := {[ ".pdf" ]}.
Definition SUPPORTED_ARCHIVE_FORMATS : gset string :=
  {[ ".zip"; ".rar"; ".cbz"; ".cbr" ]}.

Definition get_supported_formats : gset string :=
  SUPPORTED_IMAGE_FORMATS ∪ SUPPORTED_PDF_FORMATS ∪ SUPPORTED_ARCHIVE_FORMATS.

(** [extension.lower() in cls.SUPPORTED_IMAGE_FORMATS], and likewise for
    the two other classes.  The extension is given with its dot. *)
Definition is_image_format (extension : string) : bool :=
  bool_decide (PyStr.lower extension ∈ SUPPORTED_IMAGE_FORMATS).

Definition is_pdf_format (extension : string) : bool :=
  bool_decide (PyStr.lower extension ∈ SUPPORTED_PDF_FORMATS).

Definition is_archive_format (extension : string) : bool :=
  bool_decide (PyStr.lower extension ∈ SUPPORTED_ARCHIVE_FORMATS).

End Config.

(** ** [src/flask_app.py] *)

Module App.

(** What a Python call evaluates to: a value, or a raised [Exception],
    kept as the text [str(e)] that the handlers log and flash. *)
Inductive Result (A : Type) : Type :=
| Ok (a : A)
| Raise (e : string).
Arguments Ok {A} a.
Arguments Raise {A} e.

(** The name of a temporary file: the unique part chosen by [tempfile]
    and the suffix asked for. *)
Definition Path : Type := nat * string.

(** [request.files['file']]: a werkzeug [FileStorage]. *)
Record FileStorage : Type := {
  filename : string;
  stream : string
}.

(** [bool(file)] for a [FileStorage] is [bool(file.filename)]. *)
Definition file_truthy (file : FileStorage) : bool :=
  negb (bool_decide (filename file = "")).

Inductive LogLevel : Type := WARNING | ERROR.

Definition ALLOWED_EXTENSIONS : gset string :=
  {[ "png"; "jpg"; "jpeg"; "gif"; "bmp"; "tiff"; "webp"; "pdf"; "zip";
     "rar"; "cbz"; "cbr" ]}.

(** [allowed_file(filename)].  The index [[1]] raises [IndexError] on a
    one-element list; [and] evaluates it only when the name has a dot. *)
Definition allowed_file (filename : string) : Result bool :=
  if PyStr.contains_dot filename then
    match PyStr.rsplit_dot filename !! 1%nat with
    | Some ext => Ok (bool_decide (PyStr.lower ext ∈ ALLOWED_EXTENSIONS))
    | None => Raise "list index out of range"
    end
  else Ok false.

Section Pipeline.

(** Decoded pixel buffers (PIL images) and the detector's bounding
    boxes are opaque to the handler. *)
Context {Image BBox : Type}.

(** A detected region: the dict with keys ['text'], ['bbox'] and,
    optionally, ['confidence']. *)
Record Region : Type := {
  text : string;
  bbox : BBox;
  confidence : option Q
}.

(** An element of [file_handler.extract_images(...)]: a dict whose
    ['data'] is the image. *)
Record ImageData : Type := { data : Image }.

Inductive FileContent : Type :=
| RawBytes (bytes : string)
| PngImage (image : Image).

(** A call made to one of the external services. *)
Inductive Call : Type :=
| CallExtractImages (file_path : Path) (name : string)
| CallExtractText (image : Image)
| CallTranslate (txt : string)
| CallRemoveText (image : Image) (regions : list Region)
| CallRenderText (image : Image) (regions : list Region).

(** The state a request runs in: the temporary directory, the flashed
    messages, the log, and the calls made so far (oldest first). *)
Record World : Type := {
  fs : gmap Path FileContent;
  flashes : list string;
  log : list (LogLevel * string);
  calls : list Call
}.

Definition set_fs (f : gmap Path FileContent -> gmap Path FileContent)
    (w : World) : World :=
  {| fs := f (fs w); flashes := flashes w; log := log w;
     calls := calls w |}.

(** The services created at import time.  Each may raise, and each may
    answer differently from one call to the next: it sees the world at
    the time of the call. *)
Record Services : Type := {
  secure_filename : string -> string;
  extract_images : World -> Path -> string -> Result (list ImageData);
  extract_text : World -> Image -> Result (list Region);
  translate : World -> string -> Result string;
  remove_text : World -> Image -> list Region -> Result Image;
  render_text : World -> Image -> list Region -> Result Image
}.

(** *** Computations over the world *)

Definition M (A : Type) : Type := World -> Result A * World.

Definition ret {A} (a : A) : M A := fun w => (Ok a, w).

Definition raise {A} (e : string) : M A := fun w => (Raise e, w).

Definition bind {A B} (m : M A) (k : A -> M B) : M B :=
  fun w =>
    match m w with
    | (Ok a, w') => k a w'
    | (Raise e, w') => (Raise e, w')
    end.

(** [try: m  except Exception as e: handler(e)] *)
Definition try_except {A} (m : M A) (handler : string -> M A) : M A :=
  fun w =>
    match m w with
    | (Ok a, w') => (Ok a, w')
    | (Raise e, w') => handler e w'
    end.

(** [try: m  finally: cleanup].  The clean-up runs whatever [m] did;
    when the clean-up itself raises, that exception wins. *)
Definition try_finally {A} (m : M A) (cleanup : M unit) : M A :=
  fun w =>
    match m w with
    | (r, w') =>
        match cleanup w' with
        | (Ok _, w'') => (r, w'')
        | (Raise e, w'') => (Raise e, w'')
        end
    end.

Definition lift {A} (r : Result A) : M A := fun w => (r, w).

(** A call to a service: the service answers from the current world,
    and the call is recorded. *)
Definition record_call (c : Call) (w : World) : World :=
  {| fs := fs w; flashes := flashes w; log := log w;
     calls := calls w ++ [c] |}.

Definition invoke {A} (c : Call) (f : World -> Result A) : M A :=
  fun w => (f w, record_call c w).

Definition flash (msg : string) : M unit :=
  fun w =>
    (Ok tt, {| fs := fs w; flashes := flashes w ++ [msg]; log := log w;
               calls := calls w |}).

Definition logger (level : LogLevel) (msg : string) : M unit :=
  fun w =>
    (Ok tt, {| fs := fs w; flashes := flashes w;
               log := log w ++ [(level, msg)]; calls := calls w |}).

(** *** The temporary directory *)

(** [tempfile.NamedTemporaryFile(delete=False, suffix=...)]: an empty
    file under a name no existing file has.  The name that [tempfile]
    builds is ["tmp"], eight random characters and the suffix; the file
    system of the deployment (Linux) refuses a name of more than 255 bytes,
    and the call then raises [OSError] (errno 36), whose text also quotes
    the path. *)
Definition NAME_MAX : nat := 255.

Definition name_too_long (suffix : string) : bool :=
  (NAME_MAX <? 11 + String.length suffix)%nat.

Definition fresh_path (files : gmap Path FileContent) (suffix : string)
    : Path :=
  (fresh (set_map (D := gset nat) fst (dom files)), suffix).

Definition NamedTemporaryFile (suffix : string) : M Path :=
  fun w =>
    if name_too_long suffix then (Raise "[Errno 36] File name too long", w)
    else
      let p := fresh_path (fs w) suffix in
      (Ok p, set_fs (insert p (RawBytes "")) w).

(** [file.save(path)] and [image.save(path, 'PNG')]. *)
Definition write_file (p : Path) (c : FileContent) : M unit :=
  fun w => (Ok tt, set_fs (insert p c) w).

(** Opening a file for reading; a missing file raises. *)
Definition read_file (p : Path) : M FileContent :=
  fun w =>
    match fs w !! p with
    | Some c => (Ok c, w)
    | None => (Raise "No such file or directory", w)
    end.

(** [os.unlink(path)]; a missing file raises. *)
Definition unlink (p : Path) : M unit :=
  fun w =>
    match fs w !! p with
    | Some _ => (Ok tt, set_fs (delete p) w)
    | None => (Raise "No such file or directory", w)
    end.

End Pipeline.

Arguments Region : clear implicits.
Arguments ImageData : clear implicits.
Arguments FileContent : clear implicits.
Arguments Call : clear implicits.
Arguments World : clear implicits.
Arguments Services : clear implicits.
Arguments M : clear implicits.

Notation "'let*' x ':=' m 'in' k" := (bind m (fun x => k))
  (at level 10, x name, m at level 100, k at level 200).
Notation "m ';;' k" := (bind m (fun _ => k))
  (at level 100, k at level 200, right associativity).

(** What the handler returns to Flask. *)
Inductive Body (Image : Type) : Type :=
| FileBody (path : Path) (content : FileContent Image)
| ZipBody (entries : list (string * FileContent Image)).
Arguments FileBody {Image} path content.
Arguments ZipBody {Image} entries.

Inductive Response (Image : Type) : Type :=
| Redirect (endpoint : string)
| Attachment (body : Body Image) (download_name : string)
    (mimetype : option string).
Arguments Redirect {Image} endpoint.
Arguments Attachment {Image} body download_name mimetype.

Section Handler.

Context {Image BBox : Type}.
Variable sv : Services Image BBox.

Abbreviation Region := (Region BBox).
Abbreviation M := (M Image BBox).

(** The body of the inner loop of [process_file] (lines 143-154): one
    region in, one region out, whatever the translator does. *)
Definition translate_region (region : Region) : M Region :=
  try_except
    (let* translated_text :=
       invoke (CallTranslate (text region))
              (fun w => translate sv w (text region)) in
     ret {| text := translated_text;
            bbox := bbox region;
            confidence := Some (default 1%Q (confidence region)) |})
    (fun e =>
       logger WARNING ("Translation failed for text: " +:+ text region
                       +:+ ", error: " +:+ e) ;;
       ret region).

(** [for region in text_regions: ... translated_regions.append(...)] *)
Fixpoint translate_regions (text_regions translated_regions : list Region)
    : M (list Region) :=
  match text_regions with
  | [] => ret translated_regions
  | region :: rest =>
      let* r := translate_region region in
      translate_regions rest (translated_regions ++ [r])
  end.

(** The body of the outer loop of [process_file] (lines 131-165).  Regions
    are values here: a region appended untranslated is the very dict the
    inpainter receives, and the services are taken not to mutate their
    arguments. *)
Definition process_image (image_data : ImageData Image)
    (processed_files : list Path) : M (list Path) :=
  let* text_regions :=
    invoke (CallExtractText (data image_data))
           (fun w => extract_text sv w (data image_data)) in
  match text_regions with
  | [] =>
      let* temp_output := NamedTemporaryFile ".png" in
      write_file temp_output (PngImage (data image_data)) ;;
      ret (processed_files ++ [temp_output])
  | _ :: _ =>
      let* translated_regions := translate_regions text_regions [] in
      let* cleaned_image :=
        invoke (CallRemoveText (data image_data) text_regions)
               (fun w => remove_text sv w (data image_data) text_regions) in
      let* final_image :=
        invoke (CallRenderText cleaned_image translated_regions)
               (fun w => render_text sv w cleaned_image translated_regions) in
      let* temp_output := NamedTemporaryFile ".png" in
      write_file temp_output (PngImage final_image) ;;
      ret (processed_files ++ [temp_output])
  end.

(** [for image_data in images: ...] *)
Fixpoint process_images (images : list (ImageData Image))
    (processed_files : list Path) : M (list Path) :=
  match images with
  | [] => ret processed_files
  | image_data :: rest =>
      let* processed_files' := process_image image_data processed_files in
      process_images rest processed_files'
  end.

Definition process_file (file_path : Path) (filename : string)
    : M (list Path) :=
  try_except
    (let* images :=
       invoke (CallExtractImages file_path filename)
              (fun w => extract_images sv w file_path filename) in
     process_images images [])
    (fun e =>
       logger ERROR ("Error processing file " +:+ filename +:+ ": " +:+ e) ;;
       raise e).

(** [for i, file_path in enumerate(processed_files):
       zip_file.write(file_path, f"translated_{i+1}.png")] *)
Fixpoint zip_write_all (i : nat) (paths : list Path)
    (zip_file : list (string * FileContent Image))
    : M (list (string * FileContent Image)) :=
  match paths with
  | [] => ret zip_file
  | file_path :: rest =>
      let* content := read_file file_path in
      zip_write_all (S i) rest
        (zip_file ++
         [("translated_" +:+ PyStr.str_of_nat (i + 1) +:+ ".png", content)])
  end.

(** [for file_path in processed_files: os.unlink(file_path)] *)
Fixpoint unlink_all (paths : list Path) : M unit :=
  match paths with
  | [] => ret tt
  | file_path :: rest => unlink file_path ;; unlink_all rest
  end.

(** Lines 81-100: turning the list of processed files into a response. *)
Definition deliver (processed_files : list Path) (filename : string)
    : M (Response Image) :=
  if (length processed_files =? 1)%nat then
    match processed_files !! 0%nat with
    | Some p =>
        let* content := read_file p in
        ret (Attachment (FileBody p content)
                        ("translated_" +:+ filename) None)
    | None => raise "list index out of range"
    end
  else
    let* zip_buffer := zip_write_all 0 processed_files [] in
    unlink_all processed_files ;;
    ret (Attachment (ZipBody zip_buffer)
                    ("translated_" +:+ PyStr.stem filename +:+ ".zip")
                    (Some "application/zip")).

(** [upload_file()], on the parsed multipart files of the request. *)
Definition upload_file (request_files : gmap string FileStorage)
    : M (Response Image) :=
  try_except
    (match request_files !! "file" with
     | None => flash "No file selected" ;; ret (Redirect "index")
     | Some file =>
         if bool_decide (App.filename file = "") then
           flash "No file selected" ;; ret (Redirect "index")
         else
           let* ok :=
             (if file_truthy file then lift (allowed_file (App.filename file))
              else ret false) in
           if (ok : bool) then
             let filename := secure_filename sv (App.filename file) in
             let* temp_input := NamedTemporaryFile ("_" +:+ filename) in
             write_file temp_input (RawBytes (stream file)) ;;
             try_finally
               (try_except
                  (let* processed_files := process_file temp_input filename in
                   deliver processed_files filename)
                  (fun e =>
                     logger ERROR ("Error processing file: " +:+ e) ;;
                     flash ("Error processing file: " +:+ e) ;;
                     ret (Redirect "index")))
               (unlink temp_input)
           else
             flash "Invalid file type" ;; ret (Redirect "index")
     end)
    (fun e =>
       logger ERROR ("Upload error: " +:+ e) ;;
       flash ("Upload failed: " +:+ e) ;;
       ret (Redirect "index")).

End Handler.

(** The keyword arguments that [index()] passes to the template.
    [OCR_AVAILABLE] is set when the module is imported, by whether the
    real text extractor could be imported. *)
Record IndexPage : Type := {
  ocr_available : bool;
  max_file_size_mb : Z;
  supported_formats : list string
}.

Definition index (OCR_AVAILABLE : bool) : IndexPage :=
  {| ocr_available := OCR_AVAILABLE;
     max_file_size_mb := (Config.MAX_FILE_SIZE / (1024 * 1024))%Z;
     supported_formats :=
       ["PNG"; "JPG"; "JPEG"; "WebP"; "BMP"; "TIFF"; "GIF"; "PDF"; "ZIP";
        "RAR"; "CBZ"; "CBR"] |}.

(** The JSON object of [health_check()]. *)
Record Health : Type := {
  status : string;
  health_ocr_available : bool;
  services : gmap string string
}.

Definition health_check (OCR_AVAILABLE : bool) : Health :=
  {| status := "healthy";
     health_ocr_available := OCR_AVAILABLE;
     services :=
       {[ "text_extractor" := "ready"; "translator" := "ready";
          "image_processor" := "ready"; "arabic_renderer" := "ready" ]} |}.

End App.

(** ** Vocabulary of the statements *)

Module Props.
Import App.

Section Vocabulary.

Context {Image BBox : Type}.
Variable sv : Services Image BBox.

(** The sanitised name under which an accepted upload is processed. *)
Definition input_name (file : FileStorage) : string :=
  secure_filename sv (filename file).

(** The temporary file that receives the upload. *)
Definition temp_input (file : FileStorage) (w : World Image BBox) : Path :=
  fresh_path (fs w) ("_" +:+ input_name file).

(** The world in which [process_file] starts: the upload has been saved
    (lines 73-75). *)
Definition world_with_input (file : FileStorage) (w : World Image BBox)
    : World Image BBox :=
  set_fs (insert (temp_input file w) (RawBytes (stream file)))
    (set_fs (insert (temp_input file w) (RawBytes "")) w).

(** The temporary file for the upload can be created: its name is not too
    long. *)
Definition name_fits (file : FileStorage) : Prop :=
  name_too_long ("_" +:+ input_name file) = false.

(** The world in which the loop over the images starts: the extractor has
    been called on the saved upload. *)
Definition loop_start (file : FileStorage) (w : World Image BBox)
    : World Image BBox :=
  record_call (CallExtractImages (temp_input file w) (input_name file))
    (world_with_input file w).

(** For an image whose processing starts in [w] and whose detected regions
    are [regions]: the world in which the translator is called for the
    region of index [i], the regions handed to the renderer, and the worlds
    in which the inpainter and the renderer are called. *)
Definition translate_world (image : Image) (regions : list (Region BBox))
    (i : nat) (w : World Image BBox) : World Image BBox :=
  (translate_regions sv (take i regions) []
     (record_call (CallExtractText image) w)).2.

Definition translated_regions_of (image : Image)
    (regions : list (Region BBox)) (w : World Image BBox)
    : list (Region BBox) :=
  match (translate_regions sv regions []
           (record_call (CallExtractText image) w)).1 with
  | Ok translated_regions => translated_regions
  | Raise _ => []
  end.

Definition inpaint_world (image : Image) (regions : list (Region BBox))
    (w : World Image BBox) : World Image BBox :=
  (translate_regions sv regions [] (record_call (CallExtractText image) w)).2.

Definition render_world (image : Image) (regions : list (Region BBox))
    (w : World Image BBox) : World Image BBox :=
  record_call (CallRemoveText image regions) (inpaint_world image regions w).


(** The region appended for [region] when the translator answers [r]. *)
Definition appended_region (region : Region BBox) (r : Result string)
    : Region BBox :=
  match r with
  | Ok translated_text =>
      {| text := translated_text; bbox := bbox region;
         confidence := Some (default 1%Q (confidence region)) |}
  | Raise _ => region
  end.

(** [t] is what the translation loop appends for [region]: built from
    the translator's answer at the time of the call. *)
Definition translation_of (region t : Region BBox) : Prop :=
  ∃ w : World Image BBox,
    t = appended_region region (translate sv w (text region)).

End Vocabulary.

(** The files of [new] are exactly what [m'] has more than [m], and each
    of them is a PNG image. *)
Definition added {Image : Type} (m m' : gmap Path (FileContent Image))
    (new : list Path) : Prop :=
  NoDup new
  ∧ (∀ p, p ∈ new → m !! p = None ∧ ∃ img, m' !! p = Some (PngImage img))
  ∧ (∀ q, q ∉ new → m' !! q = m !! q).

Definition is_ok {A} (r : Result A) : Prop := ∃ a, r = Ok a.

(** The entry names of an archive of [n] images. *)
Definition zip_names (n : nat) : list string :=
  map (fun i => "translated_" +:+ PyStr.str_of_nat (i + 1) +:+ ".png")
      (seq 0 n).

Definition is_png {Image : Type} (c : FileContent Image) : Prop :=
  ∃ img, c = PngImage img.

Definition success {Image : Type} (r : Result (Response Image)) : Prop :=
  ∃ body name mimetype, r = Ok (Attachment body name mimetype).

(** The name ends in a dot followed by an allowed extension, in any
    letter case: [ext] is what follows the last dot. *)
Definition has_allowed_extension (name : string) : Prop :=
  ∃ stem ext,
    name = stem +:+ ("." +:+ ext)
    ∧ PyStr.contains_dot ext = false
    ∧ PyStr.lower ext ∈ ALLOWED_EXTENSIONS.

Section Behaviour.

Context {Image BBox : Type}.
Variable sv : Services Image BBox.

(** Going from [w] to [w'], the handler called [process_file] on the
    saved upload: the first thing [process_file] does is to ask the
    container extractor for its images. *)
Definition attempts_processing (file : FileStorage)
    (w w' : World Image BBox) : Prop :=
  ∃ rest,
    calls w' = calls w ++
      CallExtractImages (temp_input sv file w) (input_name sv file) :: rest.

End Behaviour.

Section Observations.

Context {Image BBox : Type}.
Variable sv : Services Image BBox.

(** The images handed to the detector, in the order of the calls. *)
Definition detected (cs : list (Call Image BBox)) : list Image :=
  omap (fun c => match c with CallExtractText image => Some image | _ => None end)
       cs.

(** The record that the translation loop logs for [region] when the
    translator answers [r]. *)
Definition translation_warning (region : Region BBox) (r : Result string)
    : option (LogLevel * string) :=
  match r with
  | Ok _ => None
  | Raise e =>
      Some (WARNING, "Translation failed for text: " +:+ text region
                     +:+ ", error: " +:+ e)
  end.

(** A translator whose answer depends on the text alone. *)
Definition stateless_translator : Prop :=
  ∀ (w1 w2 : World Image BBox) t, translate sv w1 t = translate sv w2 t.

(** A detector that never finds text, as a degraded engine does. *)
Definition blind_detector : Prop :=
  ∀ (w : World Image BBox) image, extract_text sv w image = Ok [].

End Observations.

(** Exactly one of three booleans is set. *)
Definition exactly_one (a b c : bool) : Prop :=
  (a = true ∧ b = false ∧ c = false)
  ∨ (a = false ∧ b = true ∧ c = false)
  ∨ (a = false ∧ b = false ∧ c = true).

End Props.

(** ** A concrete installation, for running the handler *)

Module Demo.
Import App.

(** Images are named pages; a bounding box is [(x, y, width, height)]. *)
Definition Page : Type := string.
Definition Box : Type := (Z * Z * Z * Z)%type.

Definition region (t : string) (b : Box) : Region Box :=
  {| text := t; bbox := b; confidence := None |}.

Definition balloons : list (Region Box) :=
  [ region "hello" (10, 10, 80, 20)%Z; region "bad" (10, 50, 80, 20)%Z ].

(** A detector that finds nothing on the page ["blank"] and two balloons
    on any other page, and a translator that fails on the text ["bad"].
    The inpainter fails on the pages listed in [torn]. *)
Definition studio (pages torn : list Page) : Services Page Box :=
  {| secure_filename := fun name => name;
     extract_images := fun _ _ _ => Ok (map (fun p => {| data := p |}) pages);
     extract_text := fun _ image =>
       if bool_decide (image = "blank") then Ok [] else Ok balloons;
     translate := fun _ t =>
       if bool_decide (t = "bad") then Raise "rate limit"
       else Ok ("ar:" +:+ t);
     remove_text := fun _ image _ =>
       if bool_decide (image ∈ torn) then Raise "inpaint failed"
       else Ok ("clean:" +:+ image);
     render_text := fun _ image _ => Ok ("render:" +:+ image) |}.

Definition empty_world : World Page Box :=
  {| fs := ∅; flashes := []; log := []; calls := [] |}.

(** The same installation with an extractor that cannot read the file. *)
Definition corrupt : Services Page Box :=
  {| secure_filename := secure_filename (studio [] []);
     extract_images := fun _ _ _ => Raise "corrupt archive";
     extract_text := extract_text (studio [] []);
     translate := translate (studio [] []);
     remove_text := remove_text (studio [] []);
     render_text := render_text (studio [] []) |}.

(** The same installation with a detector that never finds text. *)
Definition blind (pages : list Page) : Services Page Box :=
  {| secure_filename := secure_filename (studio pages []);
     extract_images := extract_images (studio pages []);
     extract_text := fun _ _ => Ok [];
     translate := translate (studio pages []);
     remove_text := remove_text (studio pages []);
     render_text := render_text (studio pages []) |}.

Definition upload (name : string) : FileStorage :=
  {| filename := name; stream := "bytes" |}.

Definition request (name : string) : gmap string FileStorage :=
  {[ "file" := upload name ]}.

End Demo.

(** ** Basic facts on the string operations *)

Lemma contains_dot_rsplit s :
  PyStr.contains_dot s = true ↔ is_Some (PyStr.rsplit_last_dot s).
Proof.
  induction s as [|c s IH]; simpl.
  - split; [discriminate | intros [? ?]; discriminate].
  - destruct (PyStr.rsplit_last_dot s) as [[h t]|].
    + split; [eauto | intros _].
      apply orb_true_iff. right. apply IH. eauto.
    + destruct (PyStr.is_dot c); simpl.
      * split; eauto.
      * rewrite IH. split; intros [? ?]; discriminate.
Qed.

Lemma append_cons c s t : String c s +:+ t = String c (s +:+ t).
Proof. done. Qed.

(** [rsplit_last_dot] cuts at the last dot: nothing after it is a dot. *)
Lemma rsplit_last_dot_Some s h t :
  PyStr.rsplit_last_dot s = Some (h, t)
  ↔ s = h +:+ ("." +:+ t) ∧ PyStr.contains_dot t = false.
Proof.
  revert h t. induction s as [|c s IH]; intros h t; simpl.
  - split; [discriminate | intros [E _]]. by destruct h.
  - destruct (PyStr.rsplit_last_dot s) as [[h' t']|] eqn:E.
    + destruct (proj1 (IH h' t') eq_refl) as [Hs Ht'].
      split.
      * intros [= <- <-]. by rewrite Hs.
      * intros [Es Ht]. destruct h as [|c' h].
        -- change (String c s = String "." t) in Es. injection Es as -> Es.
           assert (PyStr.contains_dot t = true) as Hdot; [| congruence].
           rewrite Hs in Es. subst t. clear.
           induction h' as [|a h' IHh]; [done |].
           rewrite append_cons. simpl. rewrite IHh. apply orb_true_r.
        -- rewrite append_cons in Es. injection Es as -> Es.
           assert (Some (h', t') = Some (h, t)) as [= -> ->]
             by (apply IH; done).
           done.
    + split.
      * destruct (PyStr.is_dot c) eqn:Ec; [| discriminate].
        intros [= <- <-]. apply bool_decide_eq_true in Ec as ->. split; [done |].
        destruct (PyStr.contains_dot s) eqn:Es; [| done].
        apply contains_dot_rsplit in Es as [? ?]. congruence.
      * intros [Es Ht]. destruct h as [|c' h].
        -- change (String c s = String "." t) in Es. injection Es as -> ->.
           done.
        -- rewrite append_cons in Es. injection Es as -> Es.
           assert (None = Some (h, t)) by (apply IH; done).
           discriminate.
Qed.

Lemma rsplit_dot_length s :
  length (PyStr.rsplit_dot s) = if PyStr.contains_dot s then 2 else 1.
Proof.
  unfold PyStr.rsplit_dot.
  destruct (PyStr.contains_dot s) eqn:E.
  - apply contains_dot_rsplit in E as [[h t] ->]. done.
  - destruct (PyStr.rsplit_last_dot s) as [[h t]|] eqn:E'; [|done].
    assert (PyStr.contains_dot s = true) by (apply contains_dot_rsplit; eauto).
    congruence.
Qed.

Import App Props.

(** ** The temporary directory *)

Section Files.

Context {Image BBox : Type}.
Implicit Types (m : gmap Path (FileContent Image)) (w : World Image BBox).

Lemma fresh_path_fresh m suffix : m !! fresh_path m suffix = None.
Proof.
  apply not_elem_of_dom. intros Hin.
  apply (is_fresh (set_map (D := gset nat) fst (dom m))).
  apply elem_of_map. exists (fresh_path m suffix). split; [done | exact Hin].
Qed.

Lemma added_nil m : added m m [].
Proof.
  split; [apply NoDup_nil_2 | split].
  - intros p Hp. by apply elem_of_nil in Hp.
  - done.
Qed.

Lemma added_snoc m m' new p img :
  added m m' new → m' !! p = None →
  added m (<[p := PngImage img]> m') (new ++ [p]).
Proof.
  intros (Hnd & Hnew & Hold) Hp.
  assert (Hnotin : p ∉ new).
  { intros Hin. destruct (Hnew p Hin) as [_ [i Hi]]. congruence. }
  split; [|split].
  - apply NoDup_app. split; [done | split; [| apply NoDup_singleton]].
    intros x Hx Hx'. apply list_elem_of_singleton in Hx'. by subst.
  - intros q Hq. apply elem_of_app in Hq as [Hin | Hin].
    + destruct (Hnew q Hin) as [Hq [i Hi]]. split; [done |].
      exists i. rewrite lookup_insert_ne; [done | congruence].
    + apply list_elem_of_singleton in Hin. subst q. split.
      * rewrite <- Hold; done.
      * exists img. apply lookup_insert_eq.
  - intros q Hq. rewrite elem_of_app, list_elem_of_singleton in Hq.
    rewrite lookup_insert_ne; [apply Hold; tauto | intros ->; tauto].
Qed.

End Files.

(** ** The translation loop *)

Section Translation.

Context {Image BBox : Type}.
Variable sv : Services Image BBox.
Implicit Types (w : World Image BBox) (region : Region BBox).

Lemma appended_region_bbox region (r : Result string) :
  bbox (appended_region region r) = bbox region.
Proof. by destruct r. Qed.

Lemma appended_region_raise region e :
  appended_region region (Raise e) = region.
Proof. done. Qed.

Lemma translation_of_bbox region t :
  translation_of sv region t → bbox t = bbox region.
Proof. intros [w ->]. apply appended_region_bbox. Qed.

(** One turn of the loop never raises: the [except] clause absorbs what
    the translator raises. *)
Lemma translate_region_spec region w :
  ∃ w',
    translate_region sv region w
      = (Ok (appended_region region (translate sv w (text region))), w')
    ∧ fs w' = fs w ∧ flashes w' = flashes w
    ∧ calls w' = calls w ++ [CallTranslate (text region)].
Proof.
  unfold translate_region, try_except, bind, invoke, ret, logger.
  destruct (translate sv w (text region)) as [s|e]; simpl;
    eexists; split; try reflexivity; done.
Qed.

Lemma translate_regions_spec regions : ∀ acc w,
  ∃ ts w',
    translate_regions sv regions acc w = (Ok (acc ++ ts), w')
    ∧ Forall2 (translation_of sv) regions ts
    ∧ fs w' = fs w ∧ flashes w' = flashes w
    ∧ calls w' = calls w ++ map (fun r => CallTranslate (text r)) regions.
Proof.
  induction regions as [|region rest IH]; intros acc w; simpl.
  - exists [], w. rewrite !app_nil_r. repeat split; constructor.
  - destruct (translate_region_spec region w) as (w1 & E1 & Hfs1 & Hfl1 & Hc1).
    destruct (IH (acc ++ [appended_region region (translate sv w (text region))]) w1)
      as (ts & w2 & E2 & Hall & Hfs2 & Hfl2 & Hc2).
    exists (appended_region region (translate sv w (text region)) :: ts), w2.
    unfold bind at 1. rewrite E1, E2.
    split; [by rewrite <- app_assoc |].
    split; [constructor; [by exists w | done] |].
    split; [congruence |]. split; [congruence |].
    rewrite Hc2, Hc1, <- app_assoc. done.
Qed.

End Translation.

(** ** Processing the images of one file *)

Section Processing.

Context {Image BBox : Type}.
Variable sv : Services Image BBox.
Implicit Types (w : World Image BBox) (acc : list Path).

(** An image either yields one new PNG file, appended to the list, or
    raises before any file is created. *)
Lemma process_image_outcome image_data acc w :
  match process_image sv image_data acc w with
  | (Ok ps, w') =>
      ps = acc ++ [fresh_path (fs w) ".png"]
      ∧ (∃ img, fs w' = <[fresh_path (fs w) ".png" := PngImage img]> (fs w))
      ∧ flashes w' = flashes w ∧ calls w `prefix_of` calls w'
  | (Raise _, w') =>
      fs w' = fs w ∧ flashes w' = flashes w ∧ calls w `prefix_of` calls w'
  end.
Proof.
  unfold process_image, bind at 1, invoke at 1.
  destruct (extract_text sv w (data image_data)) as [[|r rs]|e]; simpl.
  - split; [done |]. split; [eexists; apply insert_insert_eq |].
    split; [done | by eexists].
  - set (w0 := record_call (CallExtractText (data image_data)) w).
    destruct (translate_regions_spec sv (r :: rs) [] w0)
      as (ts & w1 & E & _ & Hfs & Hfl & Hc).
    unfold bind at 1. simpl in E. rewrite E. simpl.
    unfold bind at 1, invoke at 1.
    destruct (remove_text sv w1 (data image_data) (r :: rs)) as [cleaned|e].
    + unfold bind at 1, invoke at 1. simpl.
      destruct (render_text sv _ cleaned ts) as [final|e]; simpl;
        rewrite Hfs, Hfl, Hc; simpl.
      * split; [done |]. split; [eexists; apply insert_insert_eq |].
        split; [done |]. eexists. by rewrite <- !app_assoc.
      * split; [done |]. split; [done |]. eexists. by rewrite <- !app_assoc.
    + simpl. rewrite Hfs, Hfl, Hc. simpl.
      split; [done |]. split; [done |]. eexists. by rewrite <- !app_assoc.
  - split; [done |]. split; [done | by eexists].
Qed.

Lemma process_images_outcome images : ∀ acc w m0,
  added m0 (fs w) acc →
  match process_images sv images acc w with
  | (Ok ps, w') =>
      (∃ new, ps = acc ++ new ∧ length new = length images)
      ∧ added m0 (fs w') ps ∧ flashes w' = flashes w
      ∧ calls w `prefix_of` calls w'
  | (Raise _, w') =>
      (∃ new, added m0 (fs w') new) ∧ flashes w' = flashes w
      ∧ calls w `prefix_of` calls w'
  end.
Proof.
  induction images as [|image_data rest IH]; intros acc w m0 Hadd; simpl.
  - split; [| done]. exists []. by rewrite app_nil_r.
  - unfold bind.
    pose proof (process_image_outcome image_data acc w) as Hone.
    destruct (process_image sv image_data acc w) as [[ps1|e] w1].
    + destruct Hone as (-> & [img Hfs] & Hfl & Hc).
      assert (Hadd1 : added m0 (fs w1) (acc ++ [fresh_path (fs w) ".png"])).
      { rewrite Hfs. apply added_snoc; [done | apply fresh_path_fresh]. }
      specialize (IH _ w1 m0 Hadd1).
      destruct (process_images sv rest _ w1) as [[ps|e] w2].
      * destruct IH as ([new [-> Hlen]] & Hadd2 & Hfl2 & Hc2).
        split; [| split; [done | split; [congruence | by etrans]]].
        exists (fresh_path (fs w) ".png" :: new).
        split; [by rewrite <- app_assoc | simpl; congruence].
      * destruct IH as (Hnew & Hfl2 & Hc2).
        split; [done | split; [congruence | by etrans]].
    + destruct Hone as (Hfs & Hfl & Hc). split; [| done].
      exists acc. by rewrite Hfs.
Qed.

(** [process_file] first asks for the images of the file; it only ever
    adds PNG files under fresh names, and it flashes nothing itself. *)
Lemma process_file_outcome file_path filename w :
  match process_file sv file_path filename w with
  | (Ok ps, w') =>
      added (fs w) (fs w') ps ∧ flashes w' = flashes w
      ∧ (calls w ++ [CallExtractImages file_path filename])
          `prefix_of` calls w'
  | (Raise _, w') =>
      (∃ new, added (fs w) (fs w') new) ∧ flashes w' = flashes w
      ∧ (calls w ++ [CallExtractImages file_path filename])
          `prefix_of` calls w'
  end.
Proof.
  unfold process_file, try_except, bind at 1, invoke at 1.
  destruct (extract_images sv w file_path filename) as [images|e]; simpl.
  - set (w0 := record_call (CallExtractImages file_path filename) w).
    pose proof (process_images_outcome images [] w0 (fs w) (added_nil _)) as H.
    destruct (process_images sv images [] w0) as [[ps|e] w1]; simpl.
    + by destruct H as (_ & ? & ? & ?).
    + done.
  - split; [| done]. exists []. apply added_nil.
Qed.

End Processing.

(** ** Building the response *)

Section Delivery.

Context {Image BBox : Type}.
Implicit Types (w : World Image BBox) (paths : list Path).

Lemma zip_write_all_spec paths : ∀ i zip_file w,
  (∀ p, p ∈ paths → is_Some (fs w !! p)) →
  ∃ contents,
    Forall2 (fun p c => fs w !! p = Some c) paths contents
    ∧ zip_write_all i paths zip_file w
      = (Ok (zip_file ++
             zip (map (fun k => "translated_" +:+ PyStr.str_of_nat (k + 1)
                                +:+ ".png") (seq i (length paths)))
                 contents), w).
Proof.
  induction paths as [|p rest IH]; intros i zip_file w Hall; simpl.
  - exists []. split; [constructor | by rewrite app_nil_r].
  - destruct (Hall p) as [c Hc]; [apply list_elem_of_here |].
    destruct (IH (S i)
                (zip_file ++ [("translated_" +:+ PyStr.str_of_nat (i + 1)
                               +:+ ".png", c)]) w) as (cs & Hcs & E).
    { intros q Hq. apply Hall. by apply list_elem_of_further. }
    exists (c :: cs). split; [by constructor |].
    unfold bind, read_file. rewrite Hc, E. by rewrite <- app_assoc.
Qed.

Lemma unlink_all_spec paths : ∀ w,
  NoDup paths → (∀ p, p ∈ paths → is_Some (fs w !! p)) →
  ∃ w',
    unlink_all paths w = (Ok tt, w')
    ∧ (∀ q, fs w' !! q = if decide (q ∈ paths) then None else fs w !! q)
    ∧ flashes w' = flashes w ∧ log w' = log w ∧ calls w' = calls w.
Proof.
  induction paths as [|p rest IH]; intros w Hnd Hall; simpl.
  - exists w. split; [done |]. split; [| done].
    intros q. destruct (decide (q ∈ [])) as [Hq|Hq]; [| done].
    by apply elem_of_nil in Hq.
  - apply NoDup_cons in Hnd as [Hp Hnd].
    destruct (Hall p) as [c Hc]; [apply list_elem_of_here |].
    destruct (IH (set_fs (delete p) w) Hnd) as (w' & E & Hfs & Hrest).
    { intros q Hq. simpl. rewrite lookup_delete_ne.
      - apply Hall. by apply list_elem_of_further.
      - intros ->. done. }
    exists w'. unfold bind, unlink. rewrite Hc, E.
    split; [done |]. split; [| exact Hrest].
    intros q. rewrite Hfs. simpl.
    destruct (decide (q = p)) as [-> | Hne].
    + rewrite lookup_delete_eq.
      destruct (decide (p ∈ p :: rest)) as [_|Hn];
        [by destruct (decide (p ∈ rest)) |].
      exfalso. apply Hn, list_elem_of_here.
    + rewrite lookup_delete_ne by done.
      destruct (decide (q ∈ rest)) as [Hq|Hq];
        destruct (decide (q ∈ p :: rest)) as [Hq'|Hq']; try done.
      * exfalso. apply Hq'. by apply list_elem_of_further.
      * apply elem_of_cons in Hq' as [? | ?]; done.
Qed.

(** A single processed file is sent as it is, and stays on disk. *)
Lemma deliver_single p c filename w :
  fs w !! p = Some c →
  deliver [p] filename w
  = (Ok (Attachment (FileBody p c) ("translated_" +:+ filename) None), w).
Proof. intros Hc. unfold deliver, bind, read_file. simpl. by rewrite Hc. Qed.

(** Any other number of processed files is zipped; the files are then
    removed. *)
Lemma deliver_archive paths filename w m :
  length paths ≠ 1 → added m (fs w) paths →
  ∃ contents w',
    deliver paths filename w
    = (Ok (Attachment (ZipBody (zip (zip_names (length paths)) contents))
                      ("translated_" +:+ PyStr.stem filename +:+ ".zip")
                      (Some "application/zip")), w')
    ∧ Forall2 (fun p c => fs w !! p = Some c ∧ is_png c) paths contents
    ∧ fs w' = m
    ∧ flashes w' = flashes w ∧ log w' = log w ∧ calls w' = calls w.
Proof.
  intros Hlen (Hnd & Hnew & Hold).
  assert (Hall : ∀ p, p ∈ paths → is_Some (fs w !! p)).
  { intros p Hp. destruct (Hnew p Hp) as [_ [img Hi]]. eauto. }
  destruct (zip_write_all_spec paths 0 [] w Hall) as (contents & Hcs & Ez).
  destruct (unlink_all_spec paths w Hnd Hall) as (w' & Eu & Hfs & Hrest).
  exists contents, w'. unfold deliver.
  apply Nat.eqb_neq in Hlen. rewrite Hlen.
  unfold bind. rewrite Ez, Eu. split; [done |].
  split; [| split; [| exact Hrest]].
  - clear - Hcs Hnew.
    induction Hcs as [|p c ps cs Hp Hcs IH]; constructor.
    + split; [done |].
      destruct (Hnew p) as [_ [img Hi]]; [apply list_elem_of_here |].
      exists img. congruence.
    + apply IH. intros q Hq. apply Hnew. by apply list_elem_of_further.
  - apply map_eq. intros q. rewrite Hfs.
    destruct (decide (q ∈ paths)) as [Hq|Hq].
    + symmetry. by apply Hnew.
    + by apply Hold.
Qed.

End Delivery.

(** ** The upload handler *)

Section Upload.

Context {Image BBox : Type}.
Variable sv : Services Image BBox.
Implicit Types (w : World Image BBox) (file : FileStorage)
  (request_files : gmap string FileStorage).

Lemma allowed_file_total name : ∃ b, allowed_file name = Ok b.
Proof.
  unfold allowed_file. destruct (PyStr.contains_dot name) eqn:E; [| eauto].
  pose proof (rsplit_dot_length name) as Hlen. rewrite E in Hlen.
  destruct (PyStr.rsplit_dot name) as [|h [|ext l]]; try discriminate.
  simpl. eauto.
Qed.

Lemma allowed_file_nonempty name : allowed_file name = Ok true → name ≠ "".
Proof. intros H ->. discriminate. Qed.

(** The handler always returns a response: whatever is raised inside is
    caught by one of its two [except] clauses. *)
Lemma upload_file_total request_files w :
  ∃ resp w', upload_file sv request_files w = (Ok resp, w').
Proof.
  unfold upload_file, try_except at 1.
  match goal with |- context [match ?c with _ => _ end] =>
    destruct c as [[resp|e] w'] end; simpl; eauto.
Qed.

(** The upload stays where it was saved while the images are processed. *)
Lemma temp_input_kept file w m' new :
  added (fs (world_with_input sv file w)) m' new →
  m' !! temp_input sv file w = Some (RawBytes (stream file))
  ∧ temp_input sv file w ∉ new.
Proof.
  intros (_ & Hnew & Hold).
  assert (Hin : fs (world_with_input sv file w) !! temp_input sv file w
                = Some (RawBytes (stream file)))
    by apply lookup_insert_eq.
  assert (Hnotin : temp_input sv file w ∉ new).
  { intros Hp. destruct (Hnew _ Hp) as [Hnone _]. congruence. }
  split; [| done]. by rewrite Hold.
Qed.

Lemma world_with_input_delete file w :
  delete (temp_input sv file w) (fs (world_with_input sv file w)) = fs w.
Proof.
  simpl. rewrite insert_insert_eq.
  apply delete_insert_id, fresh_path_fresh.
Qed.

Ltac enter_upload Hfile Hok Hfit :=
  let Hne := fresh "Hne" in
  pose proof (allowed_file_nonempty _ Hok) as Hne;
  unfold name_fits, input_name in Hfit;
  unfold upload_file, try_except at 1; rewrite Hfile;
  rewrite bool_decide_eq_false_2 by done;
  unfold file_truthy; rewrite bool_decide_eq_false_2 by done; simpl negb;
  cbv iota; rewrite Hok;
  unfold bind at 1, lift; cbv iota beta;
  unfold bind at 1, NamedTemporaryFile; rewrite Hfit; cbv iota beta zeta;
  unfold bind at 1, write_file; cbv iota beta;
  unfold try_finally, try_except at 1, bind at 1.

(** [process_file] raised: the error is flashed, the upload is removed,
    and what [process_file] had written stays. *)
Lemma upload_file_error request_files file w e w2 :
  request_files !! "file" = Some file →
  allowed_file (filename file) = Ok true →
  name_fits sv file →
  process_file sv (temp_input sv file w) (input_name sv file)
    (world_with_input sv file w) = (Raise e, w2) →
  ∃ w3,
    upload_file sv request_files w = (Ok (Redirect "index"), w3)
    ∧ flashes w3 = flashes w ++ ["Error processing file: " +:+ e]
    ∧ fs w3 = delete (temp_input sv file w) (fs w2)
    ∧ calls w3 = calls w2.
Proof.
  intros Hfile Hok Hfit Hproc.
  pose proof (process_file_outcome sv (temp_input sv file w)
                (input_name sv file) (world_with_input sv file w)) as Hout.
  rewrite Hproc in Hout. destruct Hout as ([new Hadd] & Hfl & _).
  apply temp_input_kept in Hadd as [Htmp _].
  unfold world_with_input, temp_input, input_name in Hproc, Htmp.
  enter_upload Hfile Hok Hfit.
  rewrite Hproc. unfold bind, logger, flash, ret, unlink. simpl.
  rewrite Htmp. simpl. eexists. split; [reflexivity |]. simpl.
  rewrite Hfl. done.
Qed.

(** One processed file: it is sent as it is; only the upload is removed. *)
Lemma upload_file_single request_files file w p w2 :
  request_files !! "file" = Some file →
  allowed_file (filename file) = Ok true →
  name_fits sv file →
  process_file sv (temp_input sv file w) (input_name sv file)
    (world_with_input sv file w) = (Ok [p], w2) →
  ∃ img w3,
    fs w2 !! p = Some (PngImage img)
    ∧ upload_file sv request_files w
      = (Ok (Attachment (FileBody p (PngImage img))
                        ("translated_" +:+ input_name sv file) None), w3)
    ∧ flashes w3 = flashes w
    ∧ calls w3 = calls w2
    ∧ fs w3 = <[p := PngImage img]> (fs w)
    ∧ fs w !! p = None.
Proof.
  intros Hfile Hok Hfit Hproc.
  pose proof (process_file_outcome sv (temp_input sv file w)
                (input_name sv file) (world_with_input sv file w)) as Hout.
  rewrite Hproc in Hout. destruct Hout as (Hadd & Hfl & _).
  destruct (temp_input_kept _ _ _ _ Hadd) as [Htmp Hnotin].
  destruct Hadd as (_ & Hnew & Hold).
  destruct (Hnew p) as [Hnone [img Himg]]; [apply list_elem_of_here |].
  exists img.
  pose proof (deliver_single p _ (input_name sv file) w2 Himg) as Hdel.
  unfold world_with_input, temp_input, input_name in Hproc, Htmp, Hdel.
  enter_upload Hfile Hok Hfit.
  rewrite Hproc, Hdel. unfold unlink. rewrite Htmp.
  eexists. split; [done |]. split; [reflexivity |]. simpl.
  split; [done |]. split; [done |].
  assert (Hpne : p ≠ temp_input sv file w).
  { intros ->. apply Hnotin, list_elem_of_here. }
  split.
  - apply map_eq. intros q.
    destruct (decide (q = temp_input sv file w)) as [-> | Hq].
    + fold (temp_input sv file w).
      rewrite lookup_delete_eq, lookup_insert_ne by done.
      symmetry. apply fresh_path_fresh.
    + fold (temp_input sv file w). rewrite lookup_delete_ne by done.
      destruct (decide (q = p)) as [-> | Hqp].
      * by rewrite lookup_insert_eq.
      * rewrite lookup_insert_ne by done. rewrite Hold.
        -- simpl. by rewrite !lookup_insert_ne.
        -- intros Hin. apply list_elem_of_singleton in Hin. done.
  - simpl in Hnone. by rewrite !lookup_insert_ne in Hnone.
Qed.

(** Any other number of processed files: they are zipped and removed,
    and the temporary directory is left as it was found. *)
Lemma upload_file_archive request_files file w ps w2 :
  request_files !! "file" = Some file →
  allowed_file (filename file) = Ok true →
  name_fits sv file →
  process_file sv (temp_input sv file w) (input_name sv file)
    (world_with_input sv file w) = (Ok ps, w2) →
  length ps ≠ 1 →
  ∃ contents w3,
    Forall2 (fun p c => fs w2 !! p = Some c ∧ is_png c) ps contents
    ∧ upload_file sv request_files w
      = (Ok (Attachment
               (ZipBody (zip (zip_names (length ps)) contents))
               ("translated_" +:+ PyStr.stem (input_name sv file) +:+ ".zip")
               (Some "application/zip")), w3)
    ∧ flashes w3 = flashes w
    ∧ calls w3 = calls w2
    ∧ fs w3 = fs w.
Proof.
  intros Hfile Hok Hfit Hproc Hlen.
  pose proof (process_file_outcome sv (temp_input sv file w)
                (input_name sv file) (world_with_input sv file w)) as Hout.
  rewrite Hproc in Hout. destruct Hout as (Hadd & Hfl & _).
  destruct (deliver_archive ps (input_name sv file) w2 _ Hlen Hadd)
    as (contents & w3 & Hdel & Hcs & Hfs3 & Hfl3 & _ & Hc3).
  exists contents.
  pose proof (world_with_input_delete file w) as Hback.
  unfold world_with_input, temp_input, input_name in Hproc, Hdel, Hback.
  enter_upload Hfile Hok Hfit.
  rewrite Hproc, Hdel. unfold unlink. rewrite Hfs3.
  simpl. rewrite lookup_insert_eq.
  eexists. split; [done |]. split; [reflexivity |]. simpl.
  split; [by rewrite Hfl3, Hfl |]. split; [done |].
  rewrite Hfs3. exact Hback.
Qed.

(** An accepted upload is always handed to [process_file]. *)
Lemma upload_file_attempts request_files file w :
  request_files !! "file" = Some file →
  allowed_file (filename file) = Ok true →
  name_fits sv file →
  attempts_processing sv file w (upload_file sv request_files w).2.
Proof.
  intros Hfile Hok Hfit.
  pose proof (process_file_outcome sv (temp_input sv file w)
                (input_name sv file) (world_with_input sv file w)) as Hout.
  destruct (process_file sv (temp_input sv file w) (input_name sv file)
              (world_with_input sv file w)) as [[ps|e] w2] eqn:Hproc.
  - destruct Hout as (_ & _ & [rest Hc]).
    destruct (decide (length ps = 1)) as [Hone | Hmany].
    + destruct ps as [|p [|? ?]]; try discriminate.
      destruct (upload_file_single _ _ _ _ _ Hfile Hok Hfit Hproc)
        as (img & w3 & _ & -> & _ & Hc3 & _).
      exists rest. simpl. rewrite Hc3, Hc. by rewrite <- app_assoc.
    + destruct (upload_file_archive _ _ _ _ _ Hfile Hok Hfit Hproc Hmany)
        as (cs & w3 & _ & -> & _ & Hc3 & _).
      exists rest. simpl. rewrite Hc3, Hc. by rewrite <- app_assoc.
  - destruct Hout as (_ & _ & [rest Hc]).
    destruct (upload_file_error _ _ _ _ _ Hfile Hok Hfit Hproc)
      as (w3 & -> & _ & _ & Hc3).
    exists rest. simpl. rewrite Hc3, Hc. by rewrite <- app_assoc.
Qed.

(** An accepted upload whose temporary file cannot be created is not
    processed: the outer [except] answers. *)
Lemma upload_file_name_too_long request_files file w :
  request_files !! "file" = Some file →
  allowed_file (filename file) = Ok true →
  ¬ name_fits sv file →
  ∃ e,
    upload_file sv request_files w
    = (Ok (Redirect "index"),
       {| fs := fs w;
          flashes := flashes w ++ ["Upload failed: " +:+ e];
          log := log w ++ [(ERROR, "Upload error: " +:+ e)];
          calls := calls w |}).
Proof.
  intros Hfile Hok Hlong.
  pose proof (allowed_file_nonempty _ Hok) as Hne.
  unfold name_fits, input_name in Hlong.
  apply not_false_is_true in Hlong.
  unfold upload_file, try_except at 1. rewrite Hfile.
  rewrite bool_decide_eq_false_2 by done.
  unfold file_truthy. rewrite bool_decide_eq_false_2 by done. simpl negb.
  cbv iota. rewrite Hok.
  unfold bind at 1, lift. cbv iota beta.
  unfold bind at 1, NamedTemporaryFile. rewrite Hlong.
  eexists. reflexivity.
Qed.

(** A refused upload is answered at once: nothing is saved and no service
    is called. *)
Lemma upload_file_refused request_files file w :
  request_files !! "file" = Some file →
  allowed_file (filename file) = Ok false →
  upload_file sv request_files w
  = (Ok (Redirect "index"),
     {| fs := fs w;
        flashes := flashes w ++
          [if bool_decide (filename file = "") then "No file selected"
           else "Invalid file type"];
        log := log w; calls := calls w |}).
Proof.
  intros Hfile Hno. unfold upload_file, try_except at 1. rewrite Hfile.
  destruct (bool_decide (filename file = "")) eqn:Hempty; [done |].
  unfold file_truthy. rewrite Hempty. simpl negb. cbv iota. rewrite Hno.
  done.
Qed.

End Upload.

(** ** Configuration *)

(** C9.  The configuration constants are the stated defaults: the size
    limit is 200 * 1024 * 1024 bytes, the OCR confidence threshold is 0.3,
    the font padding is 0.1, that is 10 percent, and the font sizes form a
    non-empty range, [MIN_FONT_SIZE <= MAX_FONT_SIZE]. *)
Theorem config_defaults :
  Config.MAX_FILE_SIZE = (200 * 1024 * 1024)%Z
  ∧ Config.MAX_FILE_SIZE = 209715200%Z
  ∧ (Config.MAX_FILE_SIZE / (1024 * 1024) = 200)%Z
  ∧ Config.OCR_CONFIDENCE_THRESHOLD = (3 # 10)%Q
  ∧ Config.FONT_SIZE_PADDING = (1 # 10)%Q
  ∧ (Config.FONT_SIZE_PADDING == 10 / 100)%Q
  ∧ (Config.MIN_FONT_SIZE <= Config.MAX_FONT_SIZE)%Z.
Proof.
  repeat split.
  unfold Config.MIN_FONT_SIZE, Config.MAX_FONT_SIZE. lia.
Qed.

(** C10.  The allow-list of [allowed_file] and the supported formats of
    [Config] are the same extensions, up to the leading dot: [e] is in
    [ALLOWED_EXTENSIONS] exactly when ['.' + e] is in
    [Config.get_supported_formats()]. *)
Theorem allowed_extensions_match_config (e : string) :
  e ∈ ALLOWED_EXTENSIONS ↔ "." +:+ e ∈ Config.get_supported_formats.
Proof.
  unfold ALLOWED_EXTENSIONS, Config.get_supported_formats,
    Config.SUPPORTED_IMAGE_FORMATS, Config.SUPPORTED_PDF_FORMATS,
    Config.SUPPORTED_ARCHIVE_FORMATS.
  change ("." +:+ e) with (String "." e).
  rewrite !elem_of_union, !elem_of_singleton.
  split.
  - intros H. repeat destruct H as [H | H]; subst e; tauto.
  - intros H. repeat destruct H as [H | H]; injection H as ->; tauto.
Qed.

(** ** The translation loop keeps the geometry *)

(** C5.  The translation loop never raises and returns one region per
    detected region; the i-th one has the bounding box of the i-th detected
    region, whether its translation succeeded (a new region with the
    translated text) or failed (the detected region itself). *)
Theorem translated_regions_keep_bbox {Image BBox : Type}
    (sv : Services Image BBox) (text_regions : list (Region BBox))
    (w : World Image BBox) :
  ∃ translated_regions w',
    translate_regions sv text_regions [] w = (Ok translated_regions, w')
    ∧ length translated_regions = length text_regions
    ∧ map bbox translated_regions = map bbox text_regions
    ∧ ∀ i region, text_regions !! i = Some region →
        ∃ t, translated_regions !! i = Some t
             ∧ bbox t = bbox region
             ∧ translation_of sv region t.
Proof.
  destruct (translate_regions_spec sv text_regions [] w)
    as (ts & w' & E & Hall & _).
  exists ts, w'. split; [exact E |].
  split; [symmetry; by eapply Forall2_length |].
  split.
  - clear E. induction Hall as [|r t rs ts' Hrt _ IH]; [done |].
    simpl. f_equal; [by eapply translation_of_bbox | exact IH].
  - intros i region Hi.
    destruct (Forall2_lookup_l _ _ _ _ _ Hall Hi) as (t & Ht & Hrt).
    exists t. split; [done |]. split; [by eapply translation_of_bbox | done].
Qed.

(** ** The extension gate *)

Lemma allowed_file_spec name :
  allowed_file name = Ok true ↔ has_allowed_extension name.
Proof.
  unfold allowed_file, has_allowed_extension, PyStr.rsplit_dot. split.
  - destruct (PyStr.contains_dot name); [| discriminate].
    destruct (PyStr.rsplit_last_dot name) as [[h t]|] eqn:E; [| discriminate].
    simpl. intros [= Hin]. apply bool_decide_eq_true in Hin.
    apply rsplit_last_dot_Some in E as [-> Ht]. by exists h, t.
  - intros (h & t & Hname & Ht & Hin).
    assert (E : PyStr.rsplit_last_dot name = Some (h, t))
      by (by apply rsplit_last_dot_Some).
    assert (Hdot : PyStr.contains_dot name = true)
      by (apply contains_dot_rsplit; eauto).
    rewrite Hdot, E. simpl. by rewrite bool_decide_eq_true_2.
Qed.

Lemma allowed_file_false name :
  ¬ has_allowed_extension name → allowed_file name = Ok false.
Proof.
  intros Hno. destruct (allowed_file_total name) as [[|] E]; [| done].
  by apply allowed_file_spec in E.
Qed.

(** C7, as the code has it.  For every upload whose filename is not empty,
    the handler returns a response; it hands the upload to [process_file]
    only when the name ends in a dot followed by one of png, jpg, jpeg,
    gif, bmp, tiff, webp, pdf, zip, rar, cbz, cbr (in any letter case), and
    it does so for every such name for which the temporary copy of the
    upload can be created; every other non-empty name is answered with the
    flashed message "Invalid file type" and a redirect, with no file saved
    and no service called. *)
Theorem upload_gate {Image BBox : Type} (sv : Services Image BBox)
    (request_files : gmap string FileStorage) (file : FileStorage)
    (w : World Image BBox) :
  request_files !! "file" = Some file →
  filename file ≠ "" →
  ∃ resp w',
    upload_file sv request_files w = (Ok resp, w')
    ∧ (attempts_processing sv file w w' → has_allowed_extension (filename file))
    ∧ (has_allowed_extension (filename file) → name_fits sv file →
       attempts_processing sv file w w')
    ∧ (¬ has_allowed_extension (filename file) →
       resp = Redirect "index"
       ∧ flashes w' = flashes w ++ ["Invalid file type"]
       ∧ fs w' = fs w ∧ calls w' = calls w ∧ log w' = log w).
Proof.
  intros Hfile Hne.
  destruct (upload_file_total sv request_files w) as (resp & w' & E).
  exists resp, w'. split; [exact E |].
  assert (Hrefused : ¬ has_allowed_extension (filename file) →
            resp = Redirect "index"
            ∧ flashes w' = flashes w ++ ["Invalid file type"]
            ∧ fs w' = fs w ∧ calls w' = calls w ∧ log w' = log w).
  { intros Hno. apply allowed_file_false in Hno.
    rewrite (upload_file_refused sv _ _ w Hfile Hno) in E.
    rewrite bool_decide_eq_false_2 in E by done.
    injection E as <- <-. done. }
  split; [| split; [| exact Hrefused]].
  - intros [rest Hcalls].
    destruct (allowed_file_total (filename file)) as [[|] Hok].
    + by apply allowed_file_spec.
    + exfalso.
      assert (Hno : ¬ has_allowed_extension (filename file)).
      { intros Hyes. apply allowed_file_spec in Hyes. congruence. }
      destruct (Hrefused Hno) as (_ & _ & _ & Hsame & _).
      rewrite Hsame in Hcalls. apply (f_equal length) in Hcalls.
      rewrite length_app in Hcalls. simpl in Hcalls. lia.
  - intros Hyes Hfit. apply allowed_file_spec in Hyes.
    pose proof (upload_file_attempts sv _ _ w Hfile Hyes Hfit) as Hatt.
    by rewrite E in Hatt.
Qed.

Lemma upload_gate_witness :
  Demo.request "page.PNG" !! "file" = Some (Demo.upload "page.PNG")
  ∧ filename (Demo.upload "page.PNG") ≠ ""
  ∧ has_allowed_extension "page.PNG"
  ∧ name_fits (Demo.studio ["blank"] []) (Demo.upload "page.PNG")
  ∧ ∃ resp w',
      upload_file (Demo.studio ["blank"] []) (Demo.request "page.PNG")
        Demo.empty_world = (Ok resp, w')
      ∧ attempts_processing (Demo.studio ["blank"] []) (Demo.upload "page.PNG")
          Demo.empty_world w'.
Proof.
  assert (Hext : has_allowed_extension "page.PNG").
  { exists "page", "PNG". split; [reflexivity |]. split; [reflexivity |].
    refine (bool_decide_unpack _ _). vm_compute. exact I. }
  split; [reflexivity |]. split; [discriminate |]. split; [exact Hext |].
  split; [reflexivity |].
  destruct (upload_gate (Demo.studio ["blank"] []) (Demo.request "page.PNG")
              (Demo.upload "page.PNG") Demo.empty_world eq_refl)
    as (resp & w' & E & _ & Hif & _); [discriminate |].
  exists resp, w'. split; [exact E |]. apply Hif; [exact Hext | reflexivity].
Defined.

(** C7 as stated fails on the empty filename: it has no allowed extension,
    yet the message is "No file selected", not "Invalid file type". *)
Lemma empty_filename_counterexample :
  ¬ has_allowed_extension (filename (Demo.upload ""))
  ∧ ∃ w',
      upload_file (Demo.studio [] []) (Demo.request "") Demo.empty_world
        = (Ok (Redirect "index"), w')
      ∧ flashes w' = ["No file selected"]
      ∧ flashes w' ≠ ["Invalid file type"].
Proof.
  split.
  - intros (h & t & Hname & _). destruct h; discriminate.
  - eexists. split; [reflexivity |]. split; [reflexivity | discriminate].
Qed.

(** ** The shape of the response *)

(** The two shapes of a response.  When processing an accepted upload
    yields exactly one processed image, the response is that PNG image
    itself, as an attachment named [translated_] followed by the whole
    sanitised filename; when it yields more than one, the response is a ZIP
    archive named after the stem, whose entries are, in the order of the
    list, the processed images under the names [translated_1.png] to
    [translated_N.png]. *)
Lemma upload_response_shape {Image BBox : Type} (sv : Services Image BBox)
    (request_files : gmap string FileStorage) (file : FileStorage)
    (w : World Image BBox) (processed_files : list Path)
    (w2 : World Image BBox) :
  request_files !! "file" = Some file →
  has_allowed_extension (filename file) →
  name_fits sv file →
  process_file sv (temp_input sv file w) (input_name sv file)
    (world_with_input sv file w) = (Ok processed_files, w2) →
  (∀ p, processed_files = [p] →
     ∃ img w3,
       fs w2 !! p = Some (PngImage img)
       ∧ upload_file sv request_files w
         = (Ok (Attachment (FileBody p (PngImage img))
                           ("translated_" +:+ input_name sv file) None), w3))
  ∧ (1 < length processed_files →
     ∃ contents w3,
       let entries := zip (zip_names (length processed_files)) contents in
       Forall2 (fun p c => fs w2 !! p = Some c ∧ is_png c)
               processed_files contents
       ∧ upload_file sv request_files w
         = (Ok (Attachment (ZipBody entries)
                  ("translated_" +:+ PyStr.stem (input_name sv file) +:+ ".zip")
                  (Some "application/zip")), w3)
       ∧ length entries = length processed_files
       ∧ entries.*1 = zip_names (length processed_files)
       ∧ entries.*2 = contents).
Proof.
  intros Hfile Hext Hfit Hproc. apply allowed_file_spec in Hext. split.
  - intros p ->.
    destruct (upload_file_single sv _ _ _ _ _ Hfile Hext Hfit Hproc)
      as (img & w3 & Himg & E & _).
    by exists img, w3.
  - intros Hlen.
    destruct (upload_file_archive sv _ _ _ _ _ Hfile Hext Hfit Hproc)
      as (contents & w3 & Hcs & E & _); [lia |].
    exists contents, w3. cbv zeta.
    assert (Hl : length (zip_names (length processed_files)) = length contents).
    { unfold zip_names. rewrite length_map, length_seq.
      by eapply Forall2_length. }
    split; [done |]. split; [done |].
    split; [| split].
    + rewrite length_zip, Hl, Nat.min_id.
      symmetry. by eapply Forall2_length.
    + apply fst_zip. lia.
    + apply snd_zip. lia.
Qed.

(** C1 (the code departs from it).  The archive branch names the response
    after the stem of the upload, [translated_book.zip].  The single-file
    branch does not: it appends the whole filename, so that a JPEG upload
    with one image is answered with a PNG body named
    [translated_cover.jpg], and a one-page PDF with a PNG body named
    [translated_book.pdf], where the specification has [translated_cover] and
    [translated_book]. *)
Theorem single_file_keeps_the_upload_extension :
  (upload_file (Demo.studio ["blank"] []) (Demo.request "cover.jpg")
     Demo.empty_world).1
  = Ok (Attachment (FileBody (1, ".png") (PngImage "blank"))
          "translated_cover.jpg" None)
  ∧ "translated_" +:+ PyStr.stem "cover.jpg" = "translated_cover"
  ∧ (upload_file (Demo.studio ["cover"] []) (Demo.request "book.pdf")
       Demo.empty_world).1
    = Ok (Attachment (FileBody (1, ".png") (PngImage "render:clean:cover"))
            "translated_book.pdf" None)
  ∧ "translated_" +:+ PyStr.stem "book.pdf" = "translated_book"
  ∧ (upload_file (Demo.studio ["blank"; "cover"] []) (Demo.request "book.pdf")
       Demo.empty_world).1
    = Ok (Attachment
            (ZipBody [("translated_1.png", PngImage "blank");
                      ("translated_2.png", PngImage "render:clean:cover")])
            "translated_book.zip" (Some "application/zip")).
Proof. repeat split; vm_compute; reflexivity. Qed.

(** ** The stages of one image, call by call *)

Section Stages.

Context {Image BBox : Type}.
Variable sv : Services Image BBox.
Implicit Types (w : World Image BBox) (image : Image)
  (regions : list (Region BBox)).

Lemma translate_regions_world_acc regions : ∀ acc acc' w,
  (translate_regions sv regions acc w).2
  = (translate_regions sv regions acc' w).2.
Proof.
  induction regions as [|region rest IH]; intros acc acc' w; simpl; [done |].
  destruct (translate_region_spec sv region w) as (w1 & E & _).
  unfold bind. rewrite E. apply IH.
Qed.

(** The loop always returns: its result and final world are the ones the
    vocabulary names. *)
Lemma translate_regions_run image regions w :
  translate_regions sv regions [] (record_call (CallExtractText image) w)
  = (Ok (translated_regions_of sv image regions w),
     inpaint_world sv image regions w).
Proof.
  unfold translated_regions_of, inpaint_world.
  destruct (translate_regions_spec sv regions []
              (record_call (CallExtractText image) w)) as (ts & w' & E & _).
  by rewrite E.
Qed.

Lemma inpaint_world_frame image regions w :
  fs (inpaint_world sv image regions w) = fs w
  ∧ flashes (inpaint_world sv image regions w) = flashes w
  ∧ calls (inpaint_world sv image regions w)
    = calls w ++ CallExtractText image
               :: map (fun r => CallTranslate (text r)) regions.
Proof.
  unfold inpaint_world.
  destruct (translate_regions_spec sv regions []
              (record_call (CallExtractText image) w))
    as (ts & w' & E & _ & Hfs & Hfl & Hc).
  rewrite E. simpl. split; [done |]. split; [done |].
  rewrite Hc. simpl. by rewrite <- app_assoc.
Qed.

(** Region by region, what the loop hands to the renderer: the answer of
    the translator in the very world of its call decides. *)
Lemma translated_regions_lookup image regions : ∀ w,
  length (translated_regions_of sv image regions w) = length regions
  ∧ ∀ i region, regions !! i = Some region →
      translated_regions_of sv image regions w !! i
      = Some (appended_region region
                (translate sv (translate_world sv image regions i w)
                   (text region))).
Proof.
  intros w. unfold translated_regions_of, translate_world.
  generalize (record_call (CallExtractText image) w). clear w.
  assert (Hgen : ∀ acc w,
            ∃ ts w',
              translate_regions sv regions acc w = (Ok (acc ++ ts), w')
              ∧ length ts = length regions
              ∧ ∀ i region, regions !! i = Some region →
                  ts !! i
                  = Some (appended_region region
                            (translate sv
                               (translate_regions sv (take i regions) [] w).2
                               (text region)))).
  { induction regions as [|r0 rest IH]; intros acc w.
    - exists [], w. simpl. rewrite app_nil_r. split; [done |].
      split; [done |]. intros i region Hi. by destruct i.
    - destruct (translate_region_spec sv r0 w) as (w1 & E1 & _).
      destruct (IH (acc ++ [appended_region r0 (translate sv w (text r0))]) w1)
        as (ts & w' & E & Hlen & Hlook).
      exists (appended_region r0 (translate sv w (text r0)) :: ts), w'.
      simpl. unfold bind at 1. rewrite E1, E.
      split; [by rewrite <- app_assoc |]. split; [by rewrite Hlen |].
      intros [|i] region Hi; simpl in Hi.
      + injection Hi as <-. done.
      + simpl. rewrite (Hlook i region Hi). do 3 f_equal.
        unfold bind. rewrite E1. apply translate_regions_world_acc. }
  intros w. destruct (Hgen [] w) as (ts & w' & E & Hlen & Hlook).
  rewrite E. simpl. done.
Qed.

(** An image with text: what [process_image] does, by the answers of the
    inpainter and of the renderer in the worlds of their calls. *)
Lemma process_image_inpaint_raises image_data acc w regions e :
  extract_text sv w (data image_data) = Ok regions →
  regions ≠ [] →
  remove_text sv (inpaint_world sv (data image_data) regions w)
    (data image_data) regions = Raise e →
  process_image sv image_data acc w
  = (Raise e, render_world sv (data image_data) regions w).
Proof.
  intros Hdet Hne Hin. unfold process_image, bind at 1, invoke at 1.
  rewrite Hdet. destruct regions as [|r rs]; [done |]. cbv beta iota.
  unfold bind at 1. rewrite translate_regions_run.
  unfold bind at 1, invoke at 1. by rewrite Hin.
Qed.

Lemma process_image_render_raises image_data acc w regions cleaned e :
  extract_text sv w (data image_data) = Ok regions →
  regions ≠ [] →
  remove_text sv (inpaint_world sv (data image_data) regions w)
    (data image_data) regions = Ok cleaned →
  render_text sv (render_world sv (data image_data) regions w) cleaned
    (translated_regions_of sv (data image_data) regions w) = Raise e →
  process_image sv image_data acc w
  = (Raise e,
     record_call
       (CallRenderText cleaned
          (translated_regions_of sv (data image_data) regions w))
       (render_world sv (data image_data) regions w)).
Proof.
  intros Hdet Hne Hin Hren. unfold process_image, bind at 1, invoke at 1.
  rewrite Hdet. destruct regions as [|r rs]; [done |]. cbv beta iota.
  unfold bind at 1. rewrite translate_regions_run.
  unfold bind at 1, invoke at 1. rewrite Hin.
  unfold bind at 1, invoke at 1. fold (render_world sv (data image_data) (r :: rs) w).
  by rewrite Hren.
Qed.

Lemma process_image_rendered image_data acc w regions cleaned final :
  extract_text sv w (data image_data) = Ok regions →
  regions ≠ [] →
  remove_text sv (inpaint_world sv (data image_data) regions w)
    (data image_data) regions = Ok cleaned →
  render_text sv (render_world sv (data image_data) regions w) cleaned
    (translated_regions_of sv (data image_data) regions w) = Ok final →
  ∃ w',
    process_image sv image_data acc w
      = (Ok (acc ++ [fresh_path (fs w) ".png"]), w')
    ∧ fs w' = <[fresh_path (fs w) ".png" := PngImage final]> (fs w)
    ∧ flashes w' = flashes w
    ∧ log w' = log (inpaint_world sv (data image_data) regions w)
    ∧ calls w' = calls w ++
        CallExtractText (data image_data)
        :: map (fun r => CallTranslate (text r)) regions
        ++ [CallRemoveText (data image_data) regions;
            CallRenderText cleaned
              (translated_regions_of sv (data image_data) regions w)].
Proof.
  intros Hdet Hne Hin Hren. unfold process_image, bind at 1, invoke at 1.
  rewrite Hdet. destruct regions as [|r rs]; [done |]. cbv beta iota.
  unfold bind at 1. rewrite translate_regions_run.
  unfold bind at 1, invoke at 1. rewrite Hin.
  unfold bind at 1, invoke at 1. fold (render_world sv (data image_data) (r :: rs) w).
  rewrite Hren.
  destruct (inpaint_world_frame (data image_data) (r :: rs) w)
    as (Hfs & Hfl & Hc).
  unfold bind, NamedTemporaryFile, write_file, ret. simpl.
  unfold render_world. simpl. rewrite Hfs.
  eexists. split; [reflexivity |]. simpl.
  split; [rewrite Hfs; apply insert_insert_eq |].
  split; [done |]. split; [done |].
  rewrite Hc. rewrite <- !app_assoc. simpl. done.
Qed.

(** An image without text. *)
Lemma process_image_blank image_data acc w :
  extract_text sv w (data image_data) = Ok [] →
  process_image sv image_data acc w
  = (Ok (acc ++ [fresh_path (fs w) ".png"]),
     {| fs := <[fresh_path (fs w) ".png" := PngImage (data image_data)]> (fs w);
        flashes := flashes w; log := log w;
        calls := calls w ++ [CallExtractText (data image_data)] |}).
Proof.
  intros Hnone. unfold process_image, bind at 1, invoke at 1.
  rewrite Hnone. cbv beta iota.
  unfold bind, NamedTemporaryFile, write_file, ret, set_fs. simpl.
  by rewrite insert_insert_eq.
Qed.

(** *** The image within its file *)

Lemma process_images_app images1 : ∀ rest acc w ps1 w1,
  process_images sv images1 acc w = (Ok ps1, w1) →
  process_images sv (images1 ++ rest) acc w = process_images sv rest ps1 w1.
Proof.
  induction images1 as [|image_data images1 IH]; intros rest acc w ps1 w1;
    simpl.
  - by intros [= -> ->].
  - unfold bind.
    destruct (process_image sv image_data acc w) as [[ps|e] w']; [| done].
    apply IH.
Qed.

(** Later images only append to the list and only add files. *)
Lemma process_images_keeps images : ∀ acc w ps w',
  process_images sv images acc w = (Ok ps, w') →
  (∃ new, ps = acc ++ new)
  ∧ ∀ q c, fs w !! q = Some c → fs w' !! q = Some c.
Proof.
  induction images as [|image_data rest IH]; intros acc w ps w'; simpl.
  - intros [= <- <-]. split; [| done]. exists []. by rewrite app_nil_r.
  - unfold bind.
    pose proof (process_image_outcome sv image_data acc w) as Hone.
    destruct (process_image sv image_data acc w) as [[ps1|e] w1];
      [| discriminate].
    destruct Hone as (-> & [img Hfs] & _). intros Hrest.
    destruct (IH _ _ _ _ Hrest) as ([new ->] & Hmono).
    split; [eexists; by rewrite <- app_assoc |].
    intros q c Hq. apply Hmono. rewrite Hfs, lookup_insert_ne; [done |].
    intros <-. rewrite fresh_path_fresh in Hq. discriminate.
Qed.

Lemma process_images_length images ps w w' :
  process_images sv images [] w = (Ok ps, w') → length ps = length images.
Proof.
  intros E.
  pose proof (process_images_outcome sv images [] w (fs w) (added_nil _)) as H.
  rewrite E in H. by destruct H as ([new [-> Hlen]] & _).
Qed.

Lemma process_file_raises file_path name w images e w' :
  extract_images sv w file_path name = Ok images →
  process_images sv images [] (record_call (CallExtractImages file_path name) w)
    = (Raise e, w') →
  process_file sv file_path name w
  = (Raise e,
     {| fs := fs w'; flashes := flashes w';
        log := log w' ++
          [(ERROR, "Error processing file " +:+ name +:+ ": " +:+ e)];
        calls := calls w' |}).
Proof.
  intros Hext Hloop. unfold process_file, try_except, bind at 1, invoke at 1.
  by rewrite Hext, Hloop.
Qed.

(** What [process_file] returns, from where one image stands in the loop:
    the images before it were processed, it gave the path [p], and the
    images after it are processed next. *)
Lemma process_file_through file_path name w
    (images1 : list (ImageData Image)) (image_data : ImageData Image)
    (images2 : list (ImageData Image)) ps1 w1 p w2 :
  extract_images sv w file_path name = Ok (images1 ++ image_data :: images2) →
  process_images sv images1 [] (record_call (CallExtractImages file_path name) w)
    = (Ok ps1, w1) →
  process_image sv image_data ps1 w1 = (Ok (ps1 ++ [p]), w2) →
  ∀ r w',
    process_images sv images2 (ps1 ++ [p]) w2 = (r, w') →
    match r with
    | Ok ps =>
        process_file sv file_path name w = (Ok ps, w')
        ∧ ps !! length images1 = Some p
        ∧ length ps = length (images1 ++ image_data :: images2)
        ∧ ∀ c, fs w2 !! p = Some c → fs w' !! p = Some c
    | Raise e =>
        ∃ w'', process_file sv file_path name w = (Raise e, w'')
    end.
Proof.
  intros Hext Hbefore Himg r w' Hafter.
  assert (Hloop : process_images sv (images1 ++ image_data :: images2) []
                    (record_call (CallExtractImages file_path name) w)
                  = (r, w')).
  { rewrite (process_images_app _ _ _ _ _ _ Hbefore). simpl.
    unfold bind. by rewrite Himg. }
  destruct r as [ps|e];
    [| eexists; by apply (process_file_raises _ _ _ _ _ _ Hext Hloop)].
  split.
  { unfold process_file, try_except, bind at 1, invoke at 1.
    by rewrite Hext, Hloop. }
  destruct (process_images_keeps _ _ _ _ _ Hafter) as ([new ->] & Hmono).
  pose proof (process_images_length _ _ _ _ Hbefore) as Hlen1.
  split; [| split].
  - rewrite <- app_assoc, lookup_app_r by lia.
    by rewrite Hlen1, Nat.sub_diag.
  - by apply process_images_length in Hloop.
  - intros c. apply Hmono.
Qed.

(** The handler's answer to a [process_file] that raised, log included. *)
Lemma upload_file_error_log request_files file w e w2 :
  request_files !! "file" = Some file →
  allowed_file (filename file) = Ok true →
  name_fits sv file →
  process_file sv (temp_input sv file w) (input_name sv file)
    (world_with_input sv file w) = (Raise e, w2) →
  upload_file sv request_files w
  = (Ok (Redirect "index"),
     {| fs := delete (temp_input sv file w) (fs w2);
        flashes := flashes w2 ++ ["Error processing file: " +:+ e];
        log := log w2 ++ [(ERROR, "Error processing file: " +:+ e)];
        calls := calls w2 |}).
Proof.
  intros Hfile Hok Hfit Hproc.
  pose proof (process_file_outcome sv (temp_input sv file w)
                (input_name sv file) (world_with_input sv file w)) as Hout.
  rewrite Hproc in Hout. destruct Hout as ([new Hadd] & _).
  apply temp_input_kept in Hadd as [Htmp _].
  pose proof (allowed_file_nonempty _ Hok) as Hne.
  unfold name_fits, input_name in Hfit.
  unfold world_with_input, temp_input, input_name in Hproc, Htmp.
  unfold upload_file, try_except at 1. rewrite Hfile.
  rewrite bool_decide_eq_false_2 by done.
  unfold file_truthy. rewrite bool_decide_eq_false_2 by done. simpl negb.
  cbv iota. rewrite Hok.
  unfold bind at 1, lift. cbv iota beta.
  unfold bind at 1, NamedTemporaryFile. rewrite Hfit. cbv iota beta zeta.
  unfold bind at 1, write_file. cbv iota beta.
  unfold try_finally, try_except at 1, bind at 1.
  rewrite Hproc. unfold bind, logger, flash, ret, unlink. simpl.
  rewrite Htmp. done.
Qed.

End Stages.

(** ** An image that cannot be inpainted or rendered *)

(** C2, as the code has it.  When the inpainter, or after it the renderer,
    raises on the call made for one image of an accepted upload, the image
    is not skipped.  [process_file] logs the error with the name of the
    file, raises it again and returns no list; the failing call is the last
    service call of the request, so that no later image is looked at; and
    the handler logs the error a second time and answers the whole request
    with a redirect and the message "Error processing file: ...". *)
Theorem failing_image_fails_request {Image BBox : Type}
    (sv : Services Image BBox) (request_files : gmap string FileStorage)
    (file : FileStorage) (w : World Image BBox)
    (images1 : list (ImageData Image)) (image : ImageData Image)
    (images2 : list (ImageData Image)) (done_files : list Path)
    (w1 : World Image BBox) (regions : list (Region BBox)) (e : string) :
  request_files !! "file" = Some file →
  has_allowed_extension (filename file) →
  name_fits sv file →
  extract_images sv (world_with_input sv file w) (temp_input sv file w)
    (input_name sv file) = Ok (images1 ++ image :: images2) →
  process_images sv images1 [] (loop_start sv file w) = (Ok done_files, w1) →
  extract_text sv w1 (data image) = Ok regions →
  regions ≠ [] →
  (remove_text sv (inpaint_world sv (data image) regions w1) (data image)
     regions = Raise e
   ∨ ∃ cleaned,
       remove_text sv (inpaint_world sv (data image) regions w1) (data image)
         regions = Ok cleaned
       ∧ render_text sv (render_world sv (data image) regions w1) cleaned
           (translated_regions_of sv (data image) regions w1) = Raise e) →
  ∃ w2 w3,
    process_file sv (temp_input sv file w) (input_name sv file)
      (world_with_input sv file w) = (Raise e, w2)
    ∧ log w2 = log (inpaint_world sv (data image) regions w1) ++
        [(ERROR, "Error processing file " +:+ input_name sv file +:+ ": "
                 +:+ e)]
    ∧ upload_file sv request_files w = (Ok (Redirect "index"), w3)
    ∧ flashes w3 = flashes w ++ ["Error processing file: " +:+ e]
    ∧ log w3 = log w2 ++ [(ERROR, "Error processing file: " +:+ e)]
    ∧ (calls w3 = calls w1 ++
         CallExtractText (data image)
         :: map (fun r => CallTranslate (text r)) regions
         ++ [CallRemoveText (data image) regions]
       ∨ ∃ cleaned,
           remove_text sv (inpaint_world sv (data image) regions w1)
             (data image) regions = Ok cleaned
           ∧ calls w3 = calls w1 ++
               CallExtractText (data image)
               :: map (fun r => CallTranslate (text r)) regions
               ++ [CallRemoveText (data image) regions;
                   CallRenderText cleaned
                     (translated_regions_of sv (data image) regions w1)]).
Proof.
  intros Hfile Hallowed Hfit Hext Hbefore Hdet Hne Hfail.
  apply allowed_file_spec in Hallowed.
  destruct (inpaint_world_frame sv (data image) regions w1) as (_ & _ & Hc).
  assert (Himg : ∃ wf,
            process_image sv image done_files w1 = (Raise e, wf)
            ∧ log wf = log (inpaint_world sv (data image) regions w1)
            ∧ (calls wf = calls w1 ++
                 CallExtractText (data image)
                 :: map (fun r => CallTranslate (text r)) regions
                 ++ [CallRemoveText (data image) regions]
               ∨ ∃ cleaned,
                   remove_text sv (inpaint_world sv (data image) regions w1)
                     (data image) regions = Ok cleaned
                   ∧ calls wf = calls w1 ++
                       CallExtractText (data image)
                       :: map (fun r => CallTranslate (text r)) regions
                       ++ [CallRemoveText (data image) regions;
                           CallRenderText cleaned
                             (translated_regions_of sv (data image) regions
                                w1)])).
  { destruct Hfail as [Hin | (cleaned & Hin & Hren)].
    - eexists. split;
        [exact (process_image_inpaint_raises sv image done_files w1 regions e
                  Hdet Hne Hin) |].
      split; [done |]. left. unfold render_world. simpl. rewrite Hc.
      by rewrite <- app_assoc.
    - eexists. split;
        [exact (process_image_render_raises sv image done_files w1 regions
                  cleaned e Hdet Hne Hin Hren) |].
      split; [done |]. right. exists cleaned. split; [done |].
      unfold render_world. simpl. rewrite Hc.
      rewrite <- !app_assoc. simpl. done. }
  destruct Himg as (wf & Himg & Hlogf & Hcallsf).
  assert (Hloop : process_images sv (images1 ++ image :: images2) []
                    (loop_start sv file w) = (Raise e, wf)).
  { rewrite (process_images_app sv _ _ _ _ _ _ Hbefore). simpl.
    unfold bind. by rewrite Himg. }
  pose proof (process_file_raises sv _ _ _ _ _ _ Hext Hloop) as Hproc.
  eexists _, _. split; [exact Hproc |]. simpl. split; [by rewrite Hlogf |].
  split; [exact (upload_file_error_log sv _ _ _ _ _ Hfile Hallowed Hfit Hproc) |].
  simpl.
  pose proof (process_file_outcome sv (temp_input sv file w)
                (input_name sv file) (world_with_input sv file w)) as Hout.
  rewrite Hproc in Hout. destruct Hout as (_ & Hfl & _). simpl in Hfl.
  split; [by rewrite Hfl |]. split; [done |]. exact Hcallsf.
Qed.

Lemma failing_image_fails_request_witness :
  ∃ w3,
    upload_file (Demo.studio ["blank"; "torn"; "cover"] ["torn"])
      (Demo.request "book.zip") Demo.empty_world
    = (Ok (Redirect "index"), w3)
    ∧ flashes w3 = ["Error processing file: inpaint failed"]
    ∧ last (calls w3) = Some (CallRemoveText "torn" Demo.balloons).
Proof.
  destruct (process_images (Demo.studio ["blank"; "torn"; "cover"] ["torn"])
              [ {| data := "blank" |} ] []
              (loop_start (Demo.studio ["blank"; "torn"; "cover"] ["torn"])
                 (Demo.upload "book.zip") Demo.empty_world))
    as [r w1] eqn:Hbefore.
  assert (Hr : r = Ok [(1, ".png")]).
  { apply (f_equal fst) in Hbefore. simpl in Hbefore. rewrite <- Hbefore.
    vm_compute. reflexivity. }
  subst r.
  assert (Hext : has_allowed_extension (filename (Demo.upload "book.zip"))).
  { exists "book", "zip". split; [reflexivity |]. split; [reflexivity |].
    refine (bool_decide_unpack _ _). vm_compute. exact I. }
  destruct (failing_image_fails_request
              (Demo.studio ["blank"; "torn"; "cover"] ["torn"])
              (Demo.request "book.zip") (Demo.upload "book.zip")
              Demo.empty_world
              [ {| data := "blank" |} ] {| data := "torn" |}
              [ {| data := "cover" |} ] [(1, ".png")] w1
              Demo.balloons "inpaint failed"
              eq_refl Hext eq_refl eq_refl Hbefore eq_refl)
    as (w2 & w3 & _ & _ & Hup & Hfl & _ & Hcalls).
  - discriminate.
  - left. reflexivity.
  - exists w3. split; [exact Hup |]. split; [exact Hfl |].
    destruct Hcalls as [Hc | (cleaned & Hin & _)]; [| discriminate].
    rewrite Hc, app_comm_cons, app_assoc. apply last_snoc.
Defined.

(** C2 as stated fails: with a first page that is processed and a second
    page whose inpainting raises, the request does not succeed with the
    first page's output; it ends with the error redirect. *)
Lemma failed_image_not_dropped_counterexample :
  (process_image (Demo.studio ["blank"; "torn"] ["torn"]) {| data := "torn" |}
     [] Demo.empty_world).1 = Raise "inpaint failed"
  ∧ (upload_file (Demo.studio ["blank"; "torn"] ["torn"])
       (Demo.request "book.zip") Demo.empty_world).1
    = Ok (Redirect "index")
  ∧ flashes (upload_file (Demo.studio ["blank"; "torn"] ["torn"])
               (Demo.request "book.zip") Demo.empty_world).2
    = ["Error processing file: inpaint failed"]
  ∧ ¬ success (upload_file (Demo.studio ["blank"; "torn"] ["torn"])
                 (Demo.request "book.zip") Demo.empty_world).1.
Proof.
  split; [vm_compute; reflexivity |].
  split; [vm_compute; reflexivity |].
  split; [vm_compute; reflexivity |].
  intros (body & name & mimetype & E). vm_compute in E. discriminate.
Qed.

(** ** A translation that fails *)

Section TranslationFailure.

Context {Image BBox : Type}.
Variable sv : Services Image BBox.
Implicit Types (w : World Image BBox).

(** With text on the image, and an inpainter and a renderer that answer,
    the image is processed whatever the translator does. *)
Lemma process_image_ok image_data acc w regions :
  extract_text sv w (data image_data) = Ok regions →
  regions ≠ [] →
  (∀ w1, is_ok (remove_text sv w1 (data image_data) regions)) →
  (∀ w1 cleaned ts, is_ok (render_text sv w1 cleaned ts)) →
  ∃ translated cleaned final w',
    process_image sv image_data acc w
      = (Ok (acc ++ [fresh_path (fs w) ".png"]), w')
    ∧ Forall2 (translation_of sv) regions translated
    ∧ calls w' = calls w ++
        CallExtractText (data image_data)
        :: map (fun r => CallTranslate (text r)) regions
        ++ [CallRemoveText (data image_data) regions;
            CallRenderText cleaned translated]
    ∧ fs w' = <[fresh_path (fs w) ".png" := PngImage final]> (fs w).
Proof.
  intros Hdet Hne Hin Hren. unfold process_image, bind at 1, invoke at 1.
  rewrite Hdet. destruct regions as [|r rs]; [done |].
  destruct (translate_regions_spec sv (r :: rs) []
              (record_call (CallExtractText (data image_data)) w))
    as (ts & w1 & E & Hall & Hfs & _ & Hc).
  change ([] ++ ts) with ts in E.
  cbv beta iota. unfold bind at 1. rewrite E.
  unfold bind at 1, invoke at 1.
  destruct (Hin w1) as [cleaned Hcl]. rewrite Hcl.
  unfold bind at 1, invoke at 1.
  destruct (Hren (record_call (CallRemoveText (data image_data) (r :: rs)) w1)
              cleaned ts) as [final Hfin].
  rewrite Hfin.
  exists ts, cleaned, final.
  unfold bind, NamedTemporaryFile, write_file, ret. simpl.
  simpl in Hfs. eexists. split; [by rewrite Hfs |].
  split; [done |]. simpl. split.
  - rewrite Hc. simpl. rewrite <- !app_assoc. simpl. done.
  - rewrite Hfs. apply insert_insert_eq.
Qed.

Hypothesis detects : ∀ w image, is_ok (extract_text sv w image).
Hypothesis inpaints : ∀ w image regions, is_ok (remove_text sv w image regions).
Hypothesis renders : ∀ w image regions, is_ok (render_text sv w image regions).

Lemma process_image_total image_data acc w :
  ∃ ps w', process_image sv image_data acc w = (Ok ps, w').
Proof.
  destruct (detects w (data image_data)) as [regions Hdet].
  destruct regions as [|r rs].
  - unfold process_image, bind at 1, invoke at 1. rewrite Hdet.
    simpl. eauto.
  - destruct (process_image_ok image_data acc w (r :: rs) Hdet)
      as (? & ? & ? & w' & E & _); eauto.
Qed.

Lemma process_images_total images : ∀ acc w,
  ∃ ps w', process_images sv images acc w = (Ok ps, w').
Proof.
  induction images as [|image_data rest IH]; intros acc w; simpl.
  - by exists acc, w.
  - destruct (process_image_total image_data acc w) as (ps & w' & E).
    unfold bind. rewrite E. apply IH.
Qed.

Lemma process_file_total file_path name w :
  is_ok (extract_images sv w file_path name) →
  ∃ ps w', process_file sv file_path name w = (Ok ps, w').
Proof.
  intros [images Hext].
  unfold process_file, try_except, bind at 1, invoke at 1. rewrite Hext.
  destruct (process_images_total images []
              (record_call (CallExtractImages file_path name) w))
    as (ps & w' & E).
  rewrite E. eauto.
Qed.

End TranslationFailure.

(** ** From a processed image to the response *)

Section Delivered.

Context {Image BBox : Type}.
Variable sv : Services Image BBox.
Implicit Types (w : World Image BBox).

(** Where the output of one image ends up: as the single file sent, or as
    the entry of the archive that has its rank. *)
Lemma delivered_image request_files file w ps w2 k p c :
  request_files !! "file" = Some file →
  allowed_file (filename file) = Ok true →
  name_fits sv file →
  process_file sv (temp_input sv file w) (input_name sv file)
    (world_with_input sv file w) = (Ok ps, w2) →
  ps !! k = Some p →
  fs w2 !! p = Some c →
  ∃ body name mimetype w3,
    upload_file sv request_files w = (Ok (Attachment body name mimetype), w3)
    ∧ flashes w3 = flashes w
    ∧ match body with
      | FileBody q c' => ps = [p] ∧ q = p ∧ c' = c
      | ZipBody entries =>
          length ps ≠ 1
          ∧ length entries = length ps
          ∧ entries !! k
            = Some ("translated_" +:+ PyStr.str_of_nat (k + 1) +:+ ".png", c)
      end.
Proof.
  intros Hfile Hok Hfit Hproc Hk Hc.
  destruct (decide (length ps = 1)) as [Hone | Hmany].
  - destruct ps as [|q [|? ?]]; try discriminate.
    destruct k as [|k]; [| by destruct k]. injection Hk as ->.
    destruct (upload_file_single sv _ _ _ _ _ Hfile Hok Hfit Hproc)
      as (img & w3 & Himg & E & Hfl & _).
    eexists _, _, _, w3. split; [exact E |]. split; [done |]. simpl.
    split; [done |]. split; [done |]. congruence.
  - destruct (upload_file_archive sv _ _ _ _ _ Hfile Hok Hfit Hproc Hmany)
      as (cs & w3 & Hcs & E & Hfl & _).
    eexists _, _, _, w3. split; [exact E |]. split; [done |]. simpl.
    pose proof (Forall2_length _ _ _ Hcs) as Hl.
    assert (Hn : length (zip_names (length ps)) = length cs).
    { unfold zip_names. by rewrite length_map, length_seq. }
    split; [done |]. split; [rewrite length_zip, Hn; lia |].
    destruct (Forall2_lookup_l _ _ _ _ _ Hcs Hk) as (c' & Hc' & Hpc & _).
    assert (c' = c) as -> by congruence.
    apply lookup_zip_Some. split; [| done].
    unfold zip_names. rewrite list_lookup_fmap.
    apply lookup_lt_Some in Hk. by rewrite lookup_seq_lt.
Qed.

End Delivered.

(** C4.  A translation that raises does not abort anything.  Take an image
    of an accepted upload with K detected regions, and let the inpainter
    and the renderer answer on the calls made for it.  Then the renderer is
    called with K regions; the region of rank i has the bounding box of the
    detected region of rank i, and it is the detected region itself, with
    its original text, when the call to the translator for it raised (a new
    region with the translated text when it answered).  The image is
    rendered and saved, and when the images after it are processed too, the
    request succeeds: [process_file] returns one path per image, nothing is
    flashed, and the response carries the rendered image at its rank. *)
Theorem translation_failure_is_absorbed {Image BBox : Type}
    (sv : Services Image BBox) (request_files : gmap string FileStorage)
    (file : FileStorage) (w : World Image BBox)
    (images1 : list (ImageData Image)) (image : ImageData Image)
    (images2 : list (ImageData Image)) (done_files : list Path)
    (w1 : World Image BBox) (regions : list (Region BBox))
    (cleaned final : Image) :
  request_files !! "file" = Some file →
  has_allowed_extension (filename file) →
  name_fits sv file →
  extract_images sv (world_with_input sv file w) (temp_input sv file w)
    (input_name sv file) = Ok (images1 ++ image :: images2) →
  process_images sv images1 [] (loop_start sv file w) = (Ok done_files, w1) →
  extract_text sv w1 (data image) = Ok regions →
  regions ≠ [] →
  remove_text sv (inpaint_world sv (data image) regions w1) (data image)
    regions = Ok cleaned →
  render_text sv (render_world sv (data image) regions w1) cleaned
    (translated_regions_of sv (data image) regions w1) = Ok final →
  length (translated_regions_of sv (data image) regions w1) = length regions
  ∧ (∀ i region, regions !! i = Some region →
       ∃ t, translated_regions_of sv (data image) regions w1 !! i = Some t
            ∧ bbox t = bbox region
            ∧ match translate sv (translate_world sv (data image) regions i w1)
                      (text region) with
              | Raise _ => t = region
              | Ok translated_text =>
                  t = {| text := translated_text; bbox := bbox region;
                         confidence := Some (default 1%Q (confidence region)) |}
              end)
  ∧ ∃ w2,
      process_image sv image done_files w1
        = (Ok (done_files ++ [fresh_path (fs w1) ".png"]), w2)
      ∧ fs w2 !! fresh_path (fs w1) ".png" = Some (PngImage final)
      ∧ calls w2 = calls w1 ++
          CallExtractText (data image)
          :: map (fun r => CallTranslate (text r)) regions
          ++ [CallRemoveText (data image) regions;
              CallRenderText cleaned
                (translated_regions_of sv (data image) regions w1)]
      ∧ ∀ ps w',
          process_images sv images2 (done_files ++ [fresh_path (fs w1) ".png"])
            w2 = (Ok ps, w') →
          process_file sv (temp_input sv file w) (input_name sv file)
            (world_with_input sv file w) = (Ok ps, w')
          ∧ length ps = length (images1 ++ image :: images2)
          ∧ ps !! length images1 = Some (fresh_path (fs w1) ".png")
          ∧ fs w' !! fresh_path (fs w1) ".png" = Some (PngImage final)
          ∧ ∃ body name mimetype w3,
              upload_file sv request_files w
                = (Ok (Attachment body name mimetype), w3)
              ∧ flashes w3 = flashes w
              ∧ match body with
                | FileBody q c =>
                    ps = [fresh_path (fs w1) ".png"]
                    ∧ q = fresh_path (fs w1) ".png" ∧ c = PngImage final
                | ZipBody entries =>
                    length ps ≠ 1
                    ∧ length entries = length ps
                    ∧ entries !! length images1
                      = Some ("translated_"
                              +:+ PyStr.str_of_nat (length images1 + 1)
                              +:+ ".png", PngImage final)
                end.
Proof.
  intros Hfile Hallowed Hfit Hext Hbefore Hdet Hne Hin Hren.
  apply allowed_file_spec in Hallowed.
  destruct (translated_regions_lookup sv (data image) regions w1)
    as [Hlen Hlook].
  split; [exact Hlen |]. split.
  - intros i region Hi. eexists. split; [exact (Hlook i region Hi) |].
    split; [apply appended_region_bbox |].
    by destruct (translate sv _ (text region)).
  - destruct (process_image_rendered sv image done_files w1 regions cleaned
                final Hdet Hne Hin Hren)
      as (w2 & Himg & Hfs & _ & _ & Hcalls).
    assert (Hp : fs w2 !! fresh_path (fs w1) ".png" = Some (PngImage final))
      by (rewrite Hfs; apply lookup_insert_eq).
    exists w2. split; [exact Himg |]. split; [exact Hp |].
    split; [exact Hcalls |].
    intros ps w' Hafter.
    pose proof (process_file_through sv _ _ _ _ _ _ _ _ _ _ Hext Hbefore Himg
                  _ _ Hafter) as (Hproc & Hrank & Hcount & Hkeep).
    split; [exact Hproc |]. split; [exact Hcount |]. split; [exact Hrank |].
    split; [by apply Hkeep |].
    exact (delivered_image sv _ _ _ _ _ _ _ _ Hfile Hallowed Hfit Hproc Hrank
             (Hkeep _ Hp)).
Qed.

Lemma translation_failure_is_absorbed_witness :
  translate (Demo.studio ["cover"] [])
    (translate_world (Demo.studio ["cover"] []) "cover" Demo.balloons 1
       (loop_start (Demo.studio ["cover"] []) (Demo.upload "cover.jpg")
          Demo.empty_world))
    "bad"
  = Raise "rate limit"
  ∧ translated_regions_of (Demo.studio ["cover"] []) "cover" Demo.balloons
      (loop_start (Demo.studio ["cover"] []) (Demo.upload "cover.jpg")
         Demo.empty_world) !! 1
    = Some (Demo.region "bad" (10, 50, 80, 20)%Z)
  ∧ ∃ name mimetype w3,
      upload_file (Demo.studio ["cover"] []) (Demo.request "cover.jpg")
        Demo.empty_world
      = (Ok (Attachment (FileBody (1, ".png") (PngImage "render:clean:cover"))
               name mimetype), w3).
Proof.
  assert (Hext : has_allowed_extension (filename (Demo.upload "cover.jpg"))).
  { exists "cover", "jpg". split; [reflexivity |]. split; [reflexivity |].
    refine (bool_decide_unpack _ _). vm_compute. exact I. }
  destruct (translation_failure_is_absorbed (Demo.studio ["cover"] [])
              (Demo.request "cover.jpg") (Demo.upload "cover.jpg")
              Demo.empty_world [] {| data := "cover" |} [] []
              (loop_start (Demo.studio ["cover"] []) (Demo.upload "cover.jpg")
                 Demo.empty_world)
              Demo.balloons "clean:cover" "render:clean:cover"
              eq_refl Hext eq_refl eq_refl eq_refl eq_refl)
    as (_ & Hlook & w2 & Himg & _ & _ & Hreq).
  - discriminate.
  - reflexivity.
  - reflexivity.
  - split; [reflexivity |]. split.
    + destruct (Hlook 1 (Demo.region "bad" (10, 50, 80, 20)%Z) eq_refl)
        as (t & Ht & _ & Hsame).
      transitivity (Some t); [exact Ht | f_equal; exact Hsame].
    + destruct (Hreq _ w2 eq_refl)
        as (_ & _ & _ & _ & body & name & mimetype & w3 & E & _ & Hbody).
      destruct body as [q c | entries].
      * destruct Hbody as (_ & -> & ->). by exists name, mimetype, w3.
      * exfalso. destruct Hbody as (Hmany & _). apply Hmany. reflexivity.
Defined.

(** ** Temporary files *)

(** C8 (the code departs from it).  Starting from an empty temporary
    directory, a request answered with a single file leaves the processed
    image on disk, and so does a request that fails after a first image was
    processed; only the saved upload is removed. *)
Theorem processed_files_are_left_behind :
  ((upload_file (Demo.studio ["blank"] []) (Demo.request "page.png")
      Demo.empty_world).1
   = Ok (Attachment (FileBody (1, ".png") (PngImage "blank"))
           "translated_page.png" None)
   ∧ map_to_list
       (fs (upload_file (Demo.studio ["blank"] []) (Demo.request "page.png")
              Demo.empty_world).2)
     = [((1, ".png"), PngImage "blank")])
  ∧ ((upload_file (Demo.studio ["blank"; "torn"] ["torn"])
        (Demo.request "book.zip") Demo.empty_world).1
     = Ok (Redirect "index")
     ∧ map_to_list
         (fs (upload_file (Demo.studio ["blank"; "torn"] ["torn"])
                (Demo.request "book.zip") Demo.empty_world).2)
       = [((1, ".png"), PngImage "blank")]).
Proof. repeat split; vm_compute; reflexivity. Qed.

(** What the clean-up does achieve: when the response is an archive, the
    temporary directory is left exactly as it was found. *)
Lemma archive_response_cleans_up {Image BBox : Type}
    (sv : Services Image BBox) (request_files : gmap string FileStorage)
    (file : FileStorage) (w : World Image BBox) (ps : list Path)
    (w2 : World Image BBox) :
  request_files !! "file" = Some file →
  has_allowed_extension (filename file) →
  name_fits sv file →
  process_file sv (temp_input sv file w) (input_name sv file)
    (world_with_input sv file w) = (Ok ps, w2) →
  length ps ≠ 1 →
  fs (upload_file sv request_files w).2 = fs w.
Proof.
  intros Hfile Hallowed Hfit Hproc Hlen. apply allowed_file_spec in Hallowed.
  destruct (upload_file_archive sv _ _ _ _ _ Hfile Hallowed Hfit Hproc Hlen)
    as (cs & w3 & _ & -> & _ & _ & Hfs).
  exact Hfs.
Qed.


(** * Further properties of the code *)

(** ** Strings and extensions *)

Lemma lower_ascii_idem c : PyStr.lower_ascii (PyStr.lower_ascii c) = PyStr.lower_ascii c.
Proof. by destruct c as [[] [] [] [] [] [] [] []]. Qed.

Lemma lower_idem s : PyStr.lower (PyStr.lower s) = PyStr.lower s.
Proof.
  induction s as [|c s IH]; [done |]. simpl. by rewrite lower_ascii_idem, IH.
Qed.

Lemma lower_dot s : PyStr.lower ("." +:+ s) = "." +:+ PyStr.lower s.
Proof. done. Qed.

Lemma allowed_iff_supported e :
  e ∈ ALLOWED_EXTENSIONS ↔ "." +:+ e ∈ Config.get_supported_formats.
Proof.
  unfold ALLOWED_EXTENSIONS, Config.get_supported_formats,
    Config.SUPPORTED_IMAGE_FORMATS, Config.SUPPORTED_PDF_FORMATS,
    Config.SUPPORTED_ARCHIVE_FORMATS.
  change ("." +:+ e) with (String "." e).
  rewrite !elem_of_union, !elem_of_singleton.
  split; intros H; repeat destruct H as [H | H];
    first [subst e | injection H as ->]; tauto.
Qed.

(** The three classes of [Config] are pairwise disjoint. *)
Lemma format_classes_disjoint x :
  (x ∈ Config.SUPPORTED_IMAGE_FORMATS →
     (x ∉ Config.SUPPORTED_PDF_FORMATS) ∧ (x ∉ Config.SUPPORTED_ARCHIVE_FORMATS))
  ∧ (x ∈ Config.SUPPORTED_PDF_FORMATS → x ∉ Config.SUPPORTED_ARCHIVE_FORMATS).
Proof.
  unfold Config.SUPPORTED_IMAGE_FORMATS, Config.SUPPORTED_PDF_FORMATS,
    Config.SUPPORTED_ARCHIVE_FORMATS.
  rewrite !elem_of_union, !elem_of_singleton.
  split; intros H; repeat destruct H as [H | H]; subst x;
    repeat split; intros H; repeat destruct H as [H | H]; discriminate.
Qed.

Lemma format_classification x :
  x ∈ Config.get_supported_formats →
  exactly_one (bool_decide (x ∈ Config.SUPPORTED_IMAGE_FORMATS))
              (bool_decide (x ∈ Config.SUPPORTED_PDF_FORMATS))
              (bool_decide (x ∈ Config.SUPPORTED_ARCHIVE_FORMATS)).
Proof.
  intros Hin. destruct (format_classes_disjoint x) as [Himg Hpdf].
  unfold Config.get_supported_formats in Hin.
  apply elem_of_union in Hin as [Hin | Harc];
    [apply elem_of_union in Hin as [Hi | Hp] |].
  - destruct (Himg Hi). left.
    by rewrite bool_decide_eq_true_2, !bool_decide_eq_false_2.
  - destruct (decide (x ∈ Config.SUPPORTED_IMAGE_FORMATS)) as [Hi | Hi].
    { destruct (Himg Hi). done. }
    right; left.
    rewrite (bool_decide_eq_false_2 _ Hi), (bool_decide_eq_true_2 _ Hp).
    rewrite bool_decide_eq_false_2; [done | by apply Hpdf].
  - destruct (decide (x ∈ Config.SUPPORTED_IMAGE_FORMATS)) as [Hi | Hi].
    { destruct (Himg Hi). done. }
    destruct (decide (x ∈ Config.SUPPORTED_PDF_FORMATS)) as [Hp | Hp].
    { by destruct (Hpdf Hp). }
    right; right.
    by rewrite (bool_decide_eq_false_2 _ Hi), (bool_decide_eq_false_2 _ Hp),
      (bool_decide_eq_true_2 _ Harc).
Qed.

(** X1.  The classification methods of [Config] ignore letter case; an
    extension belongs to the supported formats exactly when one of the
    three methods accepts it, and no extension is accepted by two. *)
Theorem config_format_classes (extension : string) :
  Config.is_image_format (PyStr.lower extension)
    = Config.is_image_format extension
  ∧ Config.is_pdf_format (PyStr.lower extension)
    = Config.is_pdf_format extension
  ∧ Config.is_archive_format (PyStr.lower extension)
    = Config.is_archive_format extension
  ∧ bool_decide (PyStr.lower extension ∈ Config.get_supported_formats)
    = Config.is_image_format extension || Config.is_pdf_format extension
      || Config.is_archive_format extension
  ∧ Config.is_image_format extension && Config.is_pdf_format extension = false
  ∧ Config.is_image_format extension && Config.is_archive_format extension
    = false
  ∧ Config.is_pdf_format extension && Config.is_archive_format extension
    = false.
Proof.
  unfold Config.is_image_format, Config.is_pdf_format,
    Config.is_archive_format.
  rewrite lower_idem.
  split; [done |]. split; [done |]. split; [done |].
  set (x := PyStr.lower extension).
  destruct (decide (x ∈ Config.get_supported_formats)) as [Hin | Hout].
  - rewrite (bool_decide_eq_true_2 _ Hin).
    destruct (format_classification x Hin)
      as [(-> & -> & ->) | [(-> & -> & ->) | (-> & -> & ->)]]; done.
  - rewrite (bool_decide_eq_false_2 _ Hout).
    unfold Config.get_supported_formats in Hout.
    rewrite !not_elem_of_union in Hout. destruct Hout as [[Hi Hp] Ha].
    by rewrite !bool_decide_eq_false_2.
Qed.

Lemma contains_dot_app_dot h t : PyStr.contains_dot (h +:+ ("." +:+ t)) = true.
Proof.
  induction h as [|c h IH]; [done |].
  rewrite append_cons. simpl. rewrite IH. apply orb_true_r.
Qed.

(** On a name cut at its last dot, only the extension is looked at. *)
Lemma allowed_file_split h ext :
  PyStr.contains_dot ext = false →
  allowed_file (h +:+ ("." +:+ ext))
  = Ok (bool_decide (PyStr.lower ext ∈ ALLOWED_EXTENSIONS)).
Proof.
  intros Hext. unfold allowed_file, PyStr.rsplit_dot.
  rewrite contains_dot_app_dot.
  by rewrite (proj2 (rsplit_last_dot_Some _ h ext) (conj eq_refl Hext)).
Qed.

(** X2.  [allowed_file] never raises: the index [[1]] is only evaluated on
    a two-element list.  A name it accepts has a dot, and a name that ends
    in a dot is refused. *)
Theorem allowed_file_is_safe (name : string) :
  (allowed_file name = Ok false
   ∨ (allowed_file name = Ok true ∧ PyStr.contains_dot name = true))
  ∧ allowed_file (name +:+ ".") = Ok false.
Proof.
  split.
  - unfold allowed_file. destruct (PyStr.contains_dot name) eqn:E; [| by left].
    pose proof (rsplit_dot_length name) as Hlen. rewrite E in Hlen.
    destruct (PyStr.rsplit_dot name) as [|h [|ext l]]; try discriminate.
    simpl. destruct (bool_decide _); [by right | by left].
  - change (name +:+ ".") with (name +:+ ("." +:+ "")).
    rewrite allowed_file_split by done. vm_compute. reflexivity.
Qed.

(** X3.  Whether a name is accepted depends only on what follows its last
    dot, read without regard to letter case: two names whose final
    extensions agree up to case get the same answer, whatever precedes. *)
Theorem allowed_file_looks_at_last_extension (stem1 stem2 ext1 ext2 : string) :
  PyStr.contains_dot ext1 = false →
  PyStr.contains_dot ext2 = false →
  PyStr.lower ext1 = PyStr.lower ext2 →
  allowed_file (stem1 +:+ ("." +:+ ext1)) = allowed_file (stem2 +:+ ("." +:+ ext2)).
Proof.
  intros H1 H2 Hlow. rewrite !allowed_file_split by done. by rewrite Hlow.
Qed.

Lemma allowed_file_looks_at_last_extension_witness :
  PyStr.contains_dot "exe" = false
  ∧ PyStr.lower "exe" = PyStr.lower "EXE"
  ∧ allowed_file "scan.png.exe" = allowed_file "SETUP.EXE".
Proof.
  split; [reflexivity |]. split; [reflexivity |].
  exact (allowed_file_looks_at_last_extension "scan.png" "SETUP" "exe" "EXE"
           eq_refl eq_refl eq_refl).
Defined.

(** X4.  What the handler accepts, [Config] classifies: the final
    extension of an accepted name, with its dot, is a supported format and
    belongs to exactly one of the image, PDF and archive classes. *)
Theorem accepted_names_are_classified (name : string) :
  allowed_file name = Ok true →
  ∃ stem ext,
    name = stem +:+ ("." +:+ ext)
    ∧ PyStr.contains_dot ext = false
    ∧ PyStr.lower ("." +:+ ext) ∈ Config.get_supported_formats
    ∧ exactly_one (Config.is_image_format ("." +:+ ext))
                  (Config.is_pdf_format ("." +:+ ext))
                  (Config.is_archive_format ("." +:+ ext)).
Proof.
  intros Hok. apply allowed_file_spec in Hok as (h & ext & -> & Hext & Hin).
  exists h, ext. split; [done |]. split; [done |].
  apply allowed_iff_supported in Hin. rewrite lower_dot.
  split; [done |]. by apply format_classification.
Qed.

Lemma accepted_names_are_classified_witness :
  allowed_file "volume.CBZ" = Ok true
  ∧ ∃ stem ext,
      "volume.CBZ" = stem +:+ ("." +:+ ext)
      ∧ Config.is_archive_format ("." +:+ ext) = true.
Proof.
  split; [reflexivity |].
  destruct (accepted_names_are_classified "volume.CBZ" eq_refl)
    as (h & ext & Hname & Hext & _ & Hone).
  exists h, ext. split; [exact Hname |].
  assert (E : PyStr.rsplit_last_dot "volume.CBZ" = Some (h, ext))
    by (apply rsplit_last_dot_Some; split; assumption).
  injection E as <- <-. reflexivity.
Defined.

(** X5.  The formats that the upload page lists are, in lower case, exactly
    the extensions that [allowed_file] accepts, each listed once; and the
    size limit it shows is 200 (megabytes). *)
Theorem index_lists_the_allowed_extensions (OCR_AVAILABLE : bool) :
  max_file_size_mb (index OCR_AVAILABLE) = 200%Z
  ∧ NoDup (PyStr.lower <$> supported_formats (index OCR_AVAILABLE))
  ∧ ∀ e, e ∈ ALLOWED_EXTENSIONS
         ↔ e ∈ PyStr.lower <$> supported_formats (index OCR_AVAILABLE).
Proof.
  split; [reflexivity |]. split.
  - refine (bool_decide_unpack _ _). vm_compute. exact I.
  - intros e.
    change (PyStr.lower <$> supported_formats (index OCR_AVAILABLE))
      with ["png"; "jpg"; "jpeg"; "webp"; "bmp"; "tiff"; "gif"; "pdf"; "zip";
            "rar"; "cbz"; "cbr"].
    unfold ALLOWED_EXTENSIONS.
    rewrite !elem_of_union, !elem_of_singleton, !elem_of_cons, elem_of_nil.
    tauto.
Qed.

(** X6.  [rsplit('.', 1)] cuts at the last dot only: it returns one or two
    parts, joining them with a dot gives the string back, a second part has
    no dot, and without a dot the stem is the whole string. *)
Theorem rsplit_dot_round_trip (s : string) :
  (PyStr.rsplit_dot s = [s] ∧ PyStr.contains_dot s = false ∧ PyStr.stem s = s)
  ∨ ∃ h t,
      PyStr.rsplit_dot s = [h; t]
      ∧ s = h +:+ ("." +:+ t)
      ∧ PyStr.contains_dot t = false
      ∧ PyStr.stem s = h.
Proof.
  unfold PyStr.rsplit_dot, PyStr.stem.
  destruct (PyStr.rsplit_last_dot s) as [[h t]|] eqn:E.
  - right. exists h, t. apply rsplit_last_dot_Some in E as [Hs Ht]. done.
  - left. split; [done |]. split; [| done].
    destruct (PyStr.contains_dot s) eqn:Hdot; [| done].
    apply contains_dot_rsplit in Hdot as [? ?]. congruence.
Qed.

(** ** The handler on any request *)

Section Requests.

Context {Image BBox : Type}.
Variable sv : Services Image BBox.
Implicit Types (w : World Image BBox) (file : FileStorage)
  (request_files : gmap string FileStorage).

Lemma upload_file_no_file request_files w :
  request_files !! "file" = None →
  upload_file sv request_files w
  = (Ok (Redirect "index"),
     {| fs := fs w; flashes := flashes w ++ ["No file selected"];
        log := log w; calls := calls w |}).
Proof. intros Hnone. unfold upload_file, try_except at 1. by rewrite Hnone. Qed.

(** The outcome of the handler on an accepted upload, read off the outcome
    of [process_file]. *)
Lemma upload_file_accepted request_files file w :
  request_files !! "file" = Some file →
  allowed_file (filename file) = Ok true →
  name_fits sv file →
  ∃ resp w' new,
    upload_file sv request_files w = (Ok resp, w')
    ∧ added (fs w) (fs w') new
    ∧ fs w' !! temp_input sv file w = None
    ∧ (∀ p, p ∈ new →
         is_Some (fs (process_file sv (temp_input sv file w) (input_name sv file)
                        (world_with_input sv file w)).2 !! p))
    ∧ ((∃ body name mimetype,
          resp = Attachment body name mimetype ∧ flashes w' = flashes w)
       ∨ (resp = Redirect "index" ∧ ∃ msg, flashes w' = flashes w ++ [msg])).
Proof.
  intros Hfile Hok Hfit.
  pose proof (process_file_outcome sv (temp_input sv file w)
                (input_name sv file) (world_with_input sv file w)) as Hout.
  destruct (process_file sv (temp_input sv file w) (input_name sv file)
              (world_with_input sv file w)) as [[ps|e] w2] eqn:Hproc.
  - destruct Hout as (Hadd & _).
    destruct (decide (length ps = 1)) as [Hone | Hmany].
    + destruct ps as [|p [|? ?]]; try discriminate.
      destruct (upload_file_single sv _ _ _ _ _ Hfile Hok Hfit Hproc)
        as (img & w3 & Himg & E & Hfl & _ & Hfs & Hfresh).
      exists (Attachment (FileBody p (PngImage img))
                ("translated_" +:+ input_name sv file) None), w3, [p].
      split; [done |]. split; [| split; [| split]].
      * rewrite Hfs. apply (added_snoc _ _ [] p img (added_nil _) Hfresh).
      * destruct (temp_input_kept sv _ _ _ _ Hadd) as [Htmp _].
        rewrite Hfs, lookup_insert_ne by congruence.
        apply fresh_path_fresh.
      * intros q Hq. apply list_elem_of_singleton in Hq as ->. simpl. eauto.
      * left. eauto.
    + destruct (upload_file_archive sv _ _ _ _ _ Hfile Hok Hfit Hproc Hmany)
        as (cs & w3 & _ & E & Hfl & _ & Hfs).
      eexists _, w3, []. split; [exact E |]. split; [| split; [| split]].
      * rewrite Hfs. apply added_nil.
      * rewrite Hfs. apply fresh_path_fresh.
      * intros q Hq. by apply elem_of_nil in Hq.
      * left. eauto.
  - destruct Hout as ([new Hadd] & _).
    destruct (upload_file_error sv _ _ _ _ _ Hfile Hok Hfit Hproc)
      as (w3 & E & Hfl & Hfs & _).
    exists (Redirect "index"), w3, new. split; [done |].
    destruct (temp_input_kept sv _ _ _ _ Hadd) as [Htmp Hnotin].
    destruct Hadd as (Hnd & Hnew & Hold).
    split; [| split; [| split]].
    + split; [done |]. split.
      * intros p Hp. destruct (Hnew p Hp) as [Hnone [img Himg]].
        assert (p ≠ temp_input sv file w) by (intros ->; done).
        simpl in Hnone. rewrite !lookup_insert_ne in Hnone by done.
        split; [done |]. exists img. rewrite Hfs.
        by rewrite lookup_delete_ne.
      * intros q Hq. rewrite Hfs.
        destruct (decide (q = temp_input sv file w)) as [-> | Hne].
        -- rewrite lookup_delete_eq. symmetry. apply fresh_path_fresh.
        -- rewrite lookup_delete_ne by done. rewrite (Hold q Hq). simpl.
           by rewrite !lookup_insert_ne.
    + rewrite Hfs. apply lookup_delete_eq.
    + intros p Hp. simpl. destruct (Hnew p Hp) as [_ [img Himg]]. eauto.
    + right. eauto.
Qed.

End Requests.

Section Suffixes.

Context {Image BBox : Type}.
Variable sv : Services Image BBox.
Implicit Types (w : World Image BBox).

(** Every file that appears while the images are processed is named
    [....png]. *)
Lemma process_images_suffix images : ∀ acc w r w',
  process_images sv images acc w = (r, w') →
  ∀ q, fs w !! q = None → is_Some (fs w' !! q) → q.2 = ".png".
Proof.
  induction images as [|image_data rest IH]; intros acc w r w'; simpl.
  - intros [= _ <-] q Hq [c Hc]. congruence.
  - unfold bind.
    pose proof (process_image_outcome sv image_data acc w) as Hone.
    destruct (process_image sv image_data acc w) as [[ps1|e] w1].
    + destruct Hone as (_ & [img Hfs] & _). intros Hrest q Hq Hq'.
      destruct (decide (q = fresh_path (fs w) ".png")) as [-> | Hne]; [done |].
      apply (IH _ _ _ _ Hrest q); [| done].
      rewrite Hfs. by rewrite lookup_insert_ne.
    + intros [= _ <-] q Hq [c Hc]. destruct Hone as (Hfs & _).
      rewrite Hfs in Hc. congruence.
Qed.

Lemma process_file_suffix file_path name w :
  ∀ q, fs w !! q = None →
       is_Some (fs (process_file sv file_path name w).2 !! q) →
       q.2 = ".png".
Proof.
  unfold process_file, try_except, bind at 1, invoke at 1.
  destruct (extract_images sv w file_path name) as [images|e]; simpl.
  - destruct (process_images sv images []
                (record_call (CallExtractImages file_path name) w))
      as [[ps|e] w1] eqn:E; simpl; intros q Hq Hq';
      by apply (process_images_suffix _ _ _ _ _ E q).
  - intros q Hq [c Hc]. congruence.
Qed.

End Suffixes.

(** X7.  A request without a [file] part, or whose file has an empty name,
    is answered at once with "No file selected": no file is written, no
    service is called and nothing is logged. *)
Theorem upload_without_file {Image BBox : Type} (sv : Services Image BBox)
    (request_files : gmap string FileStorage) (w : World Image BBox) :
  (request_files !! "file" = None
   ∨ ∃ file, request_files !! "file" = Some file ∧ filename file = "") →
  upload_file sv request_files w
  = (Ok (Redirect "index"),
     {| fs := fs w; flashes := flashes w ++ ["No file selected"];
        log := log w; calls := calls w |}).
Proof.
  intros [Hnone | (file & Hfile & Hempty)].
  - by apply upload_file_no_file.
  - rewrite (upload_file_refused sv _ file w Hfile).
    + by rewrite bool_decide_eq_true_2.
    + by rewrite Hempty.
Qed.

Lemma upload_without_file_witness :
  (∅ : gmap string FileStorage) !! "file" = None
  ∧ (upload_file (Demo.studio ["cover"] []) ∅ Demo.empty_world).1
    = Ok (Redirect "index").
Proof.
  split; [reflexivity |].
  rewrite (upload_without_file (Demo.studio ["cover"] []) ∅ Demo.empty_world).
  - reflexivity.
  - left. reflexivity.
Defined.

(** X8.  The handler never raises, whatever the services do.  It answers
    either with an attachment, and then flashes nothing, or with a redirect
    to the index page, and then flashes exactly one message. *)
Theorem upload_file_always_answers {Image BBox : Type}
    (sv : Services Image BBox) (request_files : gmap string FileStorage)
    (w : World Image BBox) :
  ∃ resp w',
    upload_file sv request_files w = (Ok resp, w')
    ∧ ((∃ body name mimetype,
          resp = Attachment body name mimetype ∧ flashes w' = flashes w)
       ∨ (resp = Redirect "index" ∧ ∃ msg, flashes w' = flashes w ++ [msg])).
Proof.
  destruct (request_files !! "file") as [file|] eqn:Hfile.
  - destruct (allowed_file_total (filename file)) as [[|] Hok].
    + destruct (decide (name_too_long ("_" +:+ input_name sv file) = false))
        as [Hfit | Hlong].
      * destruct (upload_file_accepted sv _ _ w Hfile Hok Hfit)
          as (resp & w' & new & E & _ & _ & _ & Hkind).
        by exists resp, w'.
      * destruct (upload_file_name_too_long sv _ _ w Hfile Hok Hlong)
          as [e ->].
        eexists _, _. split; [reflexivity |]. right. simpl. eauto.
    + rewrite (upload_file_refused sv _ _ w Hfile Hok).
      eexists _, _. split; [reflexivity |]. right. simpl. eauto.
  - rewrite (upload_file_no_file sv _ w Hfile).
    eexists _, _. split; [reflexivity |]. right. simpl. eauto.
Qed.

(** X9.  The handler never removes or changes a file that was in the
    temporary directory before the request, and the saved upload is never
    left behind: whatever the request and the services, the files present
    afterwards are the earlier ones plus PNG images under fresh names
    ending in [.png]. *)
Theorem upload_file_only_adds_png_files {Image BBox : Type}
    (sv : Services Image BBox) (request_files : gmap string FileStorage)
    (w : World Image BBox) :
  ∃ new,
    added (fs w) (fs (upload_file sv request_files w).2) new
    ∧ Forall (fun p => p.2 = ".png") new.
Proof.
  destruct (request_files !! "file") as [file|] eqn:Hfile.
  - destruct (allowed_file_total (filename file)) as [[|] Hok].
    + destruct (decide (name_too_long ("_" +:+ input_name sv file) = false))
        as [Hfit | Hlong].
      * destruct (upload_file_accepted sv _ _ w Hfile Hok Hfit)
          as (resp & w' & new & E & Hadd & Hgone & Hin & _).
        exists new. rewrite E. split; [done |].
        apply Forall_forall. intros p Hp.
        apply (process_file_suffix sv (temp_input sv file w)
                 (input_name sv file) (world_with_input sv file w) p);
          [| by apply Hin].
        destruct Hadd as (_ & Hnew & _).
        destruct (Hnew p Hp) as [Hnone [img Hi]].
        assert (p ≠ temp_input sv file w) by (intros ->; simpl in *; congruence).
        simpl. by rewrite !lookup_insert_ne.
      * destruct (upload_file_name_too_long sv _ _ w Hfile Hok Hlong)
          as [e ->].
        simpl. exists []. split; [apply added_nil | constructor].
    + rewrite (upload_file_refused sv _ _ w Hfile Hok). simpl.
      exists []. split; [apply added_nil | constructor].
  - rewrite (upload_file_no_file sv _ w Hfile). simpl.
    exists []. split; [apply added_nil | constructor].
Qed.

(** ** Extraction *)

(** X10.  When the container extractor raises on an accepted upload, the
    request fails cleanly: the handler redirects with the message "Error
    processing file: ..." carrying the text of the exception, the error is
    logged once by [process_file] and once by the handler, no other service
    is called, and the temporary directory is as it was before. *)
Theorem extraction_failure_is_clean {Image BBox : Type}
    (sv : Services Image BBox) (request_files : gmap string FileStorage)
    (file : FileStorage) (w : World Image BBox) (e : string) :
  request_files !! "file" = Some file →
  has_allowed_extension (filename file) →
  name_fits sv file →
  extract_images sv (world_with_input sv file w) (temp_input sv file w)
    (input_name sv file) = Raise e →
  upload_file sv request_files w
  = (Ok (Redirect "index"),
     {| fs := fs w;
        flashes := flashes w ++ ["Error processing file: " +:+ e];
        log := log w ++
          [(ERROR, "Error processing file " +:+ input_name sv file +:+ ": " +:+ e);
           (ERROR, "Error processing file: " +:+ e)];
        calls := calls w ++
          [CallExtractImages (temp_input sv file w) (input_name sv file)] |}).
Proof.
  intros Hfile Hallowed Hfit Hext. apply allowed_file_spec in Hallowed.
  pose proof (allowed_file_nonempty _ Hallowed) as Hne.
  pose proof (world_with_input_delete sv file w) as Hback.
  unfold name_fits, input_name in Hfit.
  unfold world_with_input, temp_input, input_name in Hext, Hback.
  unfold upload_file, try_except at 1. rewrite Hfile.
  rewrite bool_decide_eq_false_2 by done.
  unfold file_truthy. rewrite bool_decide_eq_false_2 by done. simpl negb.
  cbv iota. rewrite Hallowed.
  unfold bind at 1, lift. cbv iota beta.
  unfold bind at 1, NamedTemporaryFile. rewrite Hfit. cbv iota beta zeta.
  unfold bind at 1, write_file. cbv iota beta.
  unfold try_finally, try_except at 1, bind at 1.
  unfold process_file, try_except at 1, bind at 1, invoke at 1.
  rewrite Hext. unfold bind, logger, flash, ret, raise, unlink. simpl.
  rewrite lookup_insert_eq. simpl in Hback. unfold temp_input, input_name.
  unfold set_fs. simpl. rewrite Hback. by rewrite <- !app_assoc.
Qed.

Lemma extraction_failure_is_clean_witness :
  Demo.request "book.rar" !! "file" = Some (Demo.upload "book.rar")
  ∧ has_allowed_extension (filename (Demo.upload "book.rar"))
  ∧ ∃ w',
      upload_file Demo.corrupt (Demo.request "book.rar") Demo.empty_world
        = (Ok (Redirect "index"), w')
      ∧ fs w' = ∅
      ∧ flashes w' = ["Error processing file: corrupt archive"]
      ∧ calls w' = [CallExtractImages (0, "_book.rar") "book.rar"].
Proof.
  assert (Hext : has_allowed_extension (filename (Demo.upload "book.rar"))).
  { exists "book", "rar". split; [reflexivity |]. split; [reflexivity |].
    refine (bool_decide_unpack _ _). vm_compute. exact I. }
  split; [reflexivity |]. split; [exact Hext |].
  eexists. split.
  - exact (extraction_failure_is_clean Demo.corrupt (Demo.request "book.rar")
             (Demo.upload "book.rar") Demo.empty_world "corrupt archive"
             eq_refl Hext eq_refl eq_refl).
  - split; [reflexivity |]. split; reflexivity.
Defined.

(** ** One output per image *)

Section Outputs.

Context {Image BBox : Type}.
Variable sv : Services Image BBox.
Implicit Types (w : World Image BBox).

Lemma process_file_outputs file_path name w images ps w' :
  extract_images sv w file_path name = Ok images →
  process_file sv file_path name w = (Ok ps, w') →
  length ps = length images ∧ added (fs w) (fs w') ps.
Proof.
  intros Hext. unfold process_file, try_except, bind at 1, invoke at 1.
  rewrite Hext.
  pose proof (process_images_outcome sv images []
                (record_call (CallExtractImages file_path name) w)
                (fs w) (added_nil _)) as Hout.
  destruct (process_images sv images []
              (record_call (CallExtractImages file_path name) w))
    as [[ps'|e] w1]; [| discriminate].
  intros [= -> ->]. destruct Hout as ([new [-> Hlen]] & Hadd & _). done.
Qed.

End Outputs.

(** X11.  When [process_file] returns, it returns exactly one path per
    extracted image.  The paths are pairwise distinct, none of them named a
    file before, each ends in [.png] and now holds a PNG image, and every
    other file of the temporary directory is as it was. *)
Theorem process_file_one_output_per_image {Image BBox : Type}
    (sv : Services Image BBox) (file_path : Path) (name : string)
    (w : World Image BBox) (images : list (ImageData Image))
    (processed_files : list Path) (w' : World Image BBox) :
  extract_images sv w file_path name = Ok images →
  process_file sv file_path name w = (Ok processed_files, w') →
  length processed_files = length images
  ∧ NoDup processed_files
  ∧ Forall (fun p => p.2 = ".png" ∧ fs w !! p = None
                     ∧ ∃ img, fs w' !! p = Some (PngImage img))
           processed_files
  ∧ ∀ q, q ∉ processed_files → fs w' !! q = fs w !! q.
Proof.
  intros Hext Hproc.
  destruct (process_file_outputs sv _ _ _ _ _ _ Hext Hproc)
    as (Hlen & Hnd & Hnew & Hold).
  split; [done |]. split; [done |]. split; [| done].
  apply Forall_forall. intros p Hp. destruct (Hnew p Hp) as [Hnone [img Hi]].
  split; [| split; [done | eauto]].
  apply (process_file_suffix sv file_path name w p Hnone).
  rewrite Hproc. simpl. eauto.
Qed.

Lemma process_file_one_output_per_image_witness :
  ∃ w',
    process_file (Demo.studio ["blank"; "cover"; "blank"] []) (0, "_book.cbz")
      "book.cbz" Demo.empty_world
    = (Ok [(0, ".png"); (1, ".png"); (2, ".png")], w')
    ∧ fs w' !! (1, ".png") = Some (PngImage "render:clean:cover").
Proof.
  destruct (process_file (Demo.studio ["blank"; "cover"; "blank"] [])
              (0, "_book.cbz") "book.cbz" Demo.empty_world)
    as [r w'] eqn:Hproc.
  assert (Hr : r = Ok [(0, ".png"); (1, ".png"); (2, ".png")]).
  { apply (f_equal fst) in Hproc. simpl in Hproc. rewrite <- Hproc.
    vm_compute. reflexivity. }
  subst r. exists w'. split; [reflexivity |].
  destruct (process_file_one_output_per_image
              (Demo.studio ["blank"; "cover"; "blank"] []) (0, "_book.cbz")
              "book.cbz" Demo.empty_world
              [ {| data := "blank" |}; {| data := "cover" |};
                {| data := "blank" |} ] _ w' eq_refl Hproc)
    as (_ & _ & Hall & _).
  apply (f_equal snd) in Hproc. simpl in Hproc. rewrite <- Hproc.
  vm_compute. reflexivity.
Defined.

(** ** A detector that finds nothing *)

Section Blind.

Context {Image BBox : Type}.
Variable sv : Services Image BBox.
Hypothesis blind : blind_detector sv.
Implicit Types (w : World Image BBox).

Lemma process_image_blind image_data acc w :
  ∃ w',
    process_image sv image_data acc w
      = (Ok (acc ++ [fresh_path (fs w) ".png"]), w')
    ∧ fs w' = <[fresh_path (fs w) ".png" := PngImage (data image_data)]> (fs w)
    ∧ calls w' = calls w ++ [CallExtractText (data image_data)]
    ∧ log w' = log w.
Proof.
  unfold process_image, bind at 1, invoke at 1.
  rewrite (blind w (data image_data)). simpl.
  eexists. split; [reflexivity |]. simpl.
  split; [apply insert_insert_eq | done].
Qed.

Lemma process_images_blind images : ∀ acc w,
  ∃ new w',
    process_images sv images acc w = (Ok (acc ++ new), w')
    ∧ Forall2 (fun p image_data =>
                 fs w' !! p = Some (PngImage (data image_data))
                 ∧ fs w !! p = None) new images
    ∧ (∀ q c, fs w !! q = Some c → fs w' !! q = Some c)
    ∧ calls w' = calls w ++ map (fun i => CallExtractText (data i)) images
    ∧ log w' = log w.
Proof.
  induction images as [|image_data rest IH]; intros acc w; simpl.
  - exists [], w. rewrite !app_nil_r. repeat split; [constructor | done].
  - destruct (process_image_blind image_data acc w) as (w1 & E1 & Hfs1 & Hc1 & Hl1).
    destruct (IH (acc ++ [fresh_path (fs w) ".png"]) w1)
      as (new & w' & E & Hall & Hmono & Hc & Hl).
    exists (fresh_path (fs w) ".png" :: new), w'.
    unfold bind. rewrite E1, E.
    assert (Hstep : ∀ q c, fs w !! q = Some c → fs w1 !! q = Some c).
    { intros q c Hq. rewrite Hfs1, lookup_insert_ne; [done |].
      intros <-. rewrite fresh_path_fresh in Hq. discriminate. }
    split; [by rewrite <- app_assoc |]. split; [| split; [| split]].
    + constructor.
      * split; [| apply fresh_path_fresh].
        apply Hmono. rewrite Hfs1. apply lookup_insert_eq.
      * eapply Forall2_impl; [exact Hall |].
        intros p i [Hp Hnone]. split; [done |].
        destruct (fs w !! p) as [c|] eqn:Hw; [| done].
        apply Hstep in Hw. congruence.
    + intros q c Hq. by apply Hmono, Hstep.
    + rewrite Hc, Hc1, <- app_assoc. done.
    + congruence.
Qed.

End Blind.

(** X12.  With a detector that never finds text, [process_file] passes
    every extracted image through: it returns one path per image, in the
    order of the images, each holding the image itself saved as PNG; the
    translator, the inpainter and the renderer are never called, and
    nothing is logged. *)
Theorem blind_detector_passes_images_through {Image BBox : Type}
    (sv : Services Image BBox) (file_path : Path) (name : string)
    (w : World Image BBox) (images : list (ImageData Image)) :
  blind_detector sv →
  extract_images sv w file_path name = Ok images →
  ∃ processed_files w',
    process_file sv file_path name w = (Ok processed_files, w')
    ∧ Forall2 (fun p image_data =>
                 fs w' !! p = Some (PngImage (data image_data)))
              processed_files images
    ∧ calls w' = calls w ++
        CallExtractImages file_path name
        :: map (fun i => CallExtractText (data i)) images
    ∧ log w' = log w.
Proof.
  intros Hblind Hext.
  destruct (process_images_blind sv Hblind images []
              (record_call (CallExtractImages file_path name) w))
    as (new & w' & E & Hall & _ & Hc & Hl).
  exists new, w'. unfold process_file, try_except, bind at 1, invoke at 1.
  rewrite Hext, E. split; [done |]. split; [| split].
  - eapply Forall2_impl; [exact Hall |]. by intros p i [? _].
  - rewrite Hc. simpl. by rewrite <- app_assoc.
  - by rewrite Hl.
Qed.

Lemma blind_detector_passes_images_through_witness :
  blind_detector (Demo.blind ["cover"; "back"])
  ∧ ∃ w',
      process_file (Demo.blind ["cover"; "back"]) (0, "_book.pdf") "book.pdf"
        Demo.empty_world
      = (Ok [(0, ".png"); (1, ".png")], w')
      ∧ fs w' !! (0, ".png") = Some (PngImage "cover")
      ∧ fs w' !! (1, ".png") = Some (PngImage "back").
Proof.
  assert (Hblind : blind_detector (Demo.blind ["cover"; "back"]))
    by (intros w image; reflexivity).
  split; [exact Hblind |].
  destruct (blind_detector_passes_images_through (Demo.blind ["cover"; "back"])
              (0, "_book.pdf") "book.pdf" Demo.empty_world
              [ {| data := "cover" |}; {| data := "back" |} ] Hblind eq_refl)
    as (ps & w' & E & Hall & _).
  assert (Hrun : (process_file (Demo.blind ["cover"; "back"]) (0, "_book.pdf")
                    "book.pdf" Demo.empty_world).1
                 = Ok [(0, ".png"); (1, ".png")])
    by (vm_compute; reflexivity).
  rewrite E in Hrun. simpl in Hrun. injection Hrun as ->.
  exists w'. split; [exact E |].
  apply Forall2_cons in Hall as [H0 Hall].
  apply Forall2_cons in Hall as [H1 _]. split; assumption.
Defined.

(** ** The archive *)

Lemma string_length_app s t : String.length (s +:+ t) = String.length s + String.length t.
Proof. induction s as [|c s IH]; [done |]. rewrite append_cons. simpl. by rewrite IH. Qed.

Lemma string_app_inv_tail t : ∀ s1 s2, s1 +:+ t = s2 +:+ t → s1 = s2.
Proof.
  induction s1 as [|c s1 IH]; intros [|c' s2] H.
  - done.
  - apply (f_equal String.length) in H.
    rewrite append_cons, !string_length_app in H. simpl in H.
    rewrite string_length_app in H. lia.
  - apply (f_equal String.length) in H.
    rewrite append_cons, !string_length_app in H. simpl in H.
    rewrite string_length_app in H. lia.
  - rewrite !append_cons in H. injection H as -> H. f_equal. by apply IH.
Qed.

(** [str] of a natural number can be read back. *)
Lemma str_of_nat_inj n m : PyStr.str_of_nat n = PyStr.str_of_nat m → n = m.
Proof.
  assert (Hnil : ∀ k, Nat.to_uint k ≠ Decimal.Nil).
  { intros k Hk. pose proof (Unsigned.of_to k) as Hof. rewrite Hk in Hof.
    simpl in Hof. subst k. discriminate. }
  unfold PyStr.str_of_nat. intros H.
  apply (f_equal NilZero.uint_of_string) in H.
  rewrite !NilZero.usu in H by apply Hnil.
  injection H as H. by apply Unsigned.to_uint_inj.
Qed.

Lemma zip_entry_name_inj i j :
  "translated_" +:+ PyStr.str_of_nat (i + 1) +:+ ".png"
  = "translated_" +:+ PyStr.str_of_nat (j + 1) +:+ ".png" →
  i = j.
Proof.
  intros H. apply (inj (String.app "translated_")) in H.
  apply string_app_inv_tail, str_of_nat_inj in H. lia.
Qed.

Lemma zip_names_NoDup i n :
  NoDup (map (fun k => "translated_" +:+ PyStr.str_of_nat (k + 1) +:+ ".png")
             (seq i n)).
Proof.
  apply NoDup_fmap_2_strong; [| apply NoDup_seq].
  intros a b _ _. apply zip_entry_name_inj.
Qed.

Section Archive.

Context {Image BBox : Type}.
Implicit Types (w : World Image BBox) (paths : list Path).

Lemma zip_write_all_inv paths : ∀ i zip_file w entries w',
  zip_write_all i paths zip_file w = (Ok entries, w') →
  w' = w
  ∧ ∃ contents,
      Forall2 (fun p c => fs w !! p = Some c) paths contents
      ∧ entries = zip_file ++
          zip (map (fun k => "translated_" +:+ PyStr.str_of_nat (k + 1)
                             +:+ ".png") (seq i (length paths)))
              contents.
Proof.
  induction paths as [|p rest IH]; intros i zip_file w entries w'; simpl.
  - intros [= <- <-]. split; [done |]. exists [].
    split; [constructor | by rewrite app_nil_r].
  - unfold bind, read_file. destruct (fs w !! p) as [c|] eqn:Hp; [| discriminate].
    intros H. apply IH in H as (-> & cs & Hcs & ->).
    split; [done |]. exists (c :: cs). split; [by constructor |].
    by rewrite <- app_assoc.
Qed.

End Archive.

(** X13.  Writing the archive succeeds exactly when every path names a
    file.  It then leaves the world unchanged and yields one entry per
    path, in order, holding that file's content, under pairwise distinct
    names, so that no entry shadows another. *)
Theorem zip_entries_are_distinct {Image BBox : Type}
    (paths : list Path) (w : World Image BBox) :
  ((∃ entries w', zip_write_all (BBox := BBox) 0 paths [] w = (Ok entries, w'))
   ↔ ∀ p, p ∈ paths → is_Some (fs w !! p))
  ∧ ∀ entries w',
      zip_write_all (BBox := BBox) 0 paths [] w = (Ok entries, w') →
      w' = w
      ∧ length entries = length paths
      ∧ NoDup entries.*1
      ∧ Forall2 (fun p entry => fs w !! p = Some entry.2) paths entries.
Proof.
  assert (Hinv : ∀ entries w',
            zip_write_all (BBox := BBox) 0 paths [] w = (Ok entries, w') →
            w' = w
            ∧ length entries = length paths
            ∧ NoDup entries.*1
            ∧ Forall2 (fun p entry => fs w !! p = Some entry.2) paths entries).
  { intros entries w' H.
    apply zip_write_all_inv in H as (-> & cs & Hcs & ->). simpl.
    pose proof (Forall2_length _ _ _ Hcs) as Hlen.
    assert (Hl : length (map (fun k => "translated_" +:+ PyStr.str_of_nat (k + 1)
                                       +:+ ".png") (seq 0 (length paths)))
                 = length cs)
      by (by rewrite length_map, length_seq).
    split; [done |]. split; [| split].
    - rewrite length_zip, Hl. lia.
    - rewrite fst_zip by lia. apply zip_names_NoDup.
    - clear Hlen. revert Hl.
      generalize (map (fun k => "translated_" +:+ PyStr.str_of_nat (k + 1)
                                +:+ ".png") (seq 0 (length paths))).
      induction Hcs as [|p c ps cs' Hp Hcs IH]; intros [|name names] Hl;
        try discriminate; simpl; constructor; [done |].
      apply IH. simpl in Hl. lia. }
  split; [| exact Hinv]. split.
  - intros (entries & w' & H) p Hp.
    destruct (Hinv _ _ H) as (_ & _ & _ & Hall).
    apply list_elem_of_lookup in Hp as [k Hk].
    destruct (Forall2_lookup_l _ _ _ _ _ Hall Hk) as (entry & _ & He). eauto.
  - intros Hall.
    destruct (zip_write_all_spec (BBox := BBox) paths 0 [] w Hall)
      as (cs & _ & E).
    eauto.
Qed.

Lemma zip_entries_are_distinct_witness :
  ∃ entries,
    zip_write_all (BBox := Demo.Box) 0 [(0, ".png"); (1, ".png")] []
      (set_fs (insert (0, ".png") (PngImage "cover"))
         (set_fs (insert (1, ".png") (PngImage "back")) Demo.empty_world))
    = (Ok entries,
       set_fs (insert (0, ".png") (PngImage "cover"))
         (set_fs (insert (1, ".png") (PngImage "back")) Demo.empty_world))
    ∧ entries.*1 = ["translated_1.png"; "translated_2.png"]
    ∧ NoDup entries.*1.
Proof.
  destruct (zip_entries_are_distinct (BBox := Demo.Box)
              [(0, ".png"); (1, ".png")]
              (set_fs (insert (0, ".png") (PngImage "cover"))
                 (set_fs (insert (1, ".png") (PngImage "back"))
                    Demo.empty_world)))
    as [_ Hok].
  eexists. split; [vm_compute; reflexivity |].
  split; [reflexivity |].
  refine (proj1 (proj2 (proj2 (Hok _ _ _)))). vm_compute. reflexivity.
Defined.

(** ** The order of the detector calls *)

Section Detection.

Context {Image BBox : Type}.
Variable sv : Services Image BBox.
Implicit Types (w : World Image BBox).

Lemma detected_app (cs1 cs2 : list (Call Image BBox)) :
  detected (cs1 ++ cs2) = detected cs1 ++ detected cs2.
Proof. apply omap_app. Qed.

Lemma detected_translations (regions : list (Region BBox)) :
  detected (map (fun r => CallTranslate (text r)) regions
            : list (Call Image BBox)) = [].
Proof. induction regions as [|r rs IH]; [done | exact IH]. Qed.

(** Whatever becomes of an image, the detector has seen it once. *)
Lemma process_image_detects image_data acc w :
  detected (calls (process_image sv image_data acc w).2)
  = detected (calls w) ++ [data image_data].
Proof.
  unfold process_image, bind at 1, invoke at 1.
  destruct (extract_text sv w (data image_data)) as [[|r rs]|e]; simpl.
  - by rewrite detected_app.
  - destruct (translate_regions_spec sv (r :: rs) []
                (record_call (CallExtractText (data image_data)) w))
      as (ts & w1 & E & _ & _ & _ & Hc).
    change ([] ++ ts) with ts in E.
    unfold bind at 1. simpl in E. rewrite E.
    unfold bind at 1, invoke at 1.
    destruct (remove_text sv w1 (data image_data) (r :: rs)) as [cleaned|e].
    + unfold bind at 1, invoke at 1.
      destruct (render_text sv _ cleaned ts) as [final|e]; simpl;
        rewrite Hc, !detected_app, detected_translations; simpl;
        by rewrite !app_nil_r, detected_app.
    + simpl. rewrite Hc, !detected_app, detected_translations. simpl.
      by rewrite !app_nil_r, detected_app.
  - by rewrite detected_app.
Qed.

Lemma process_images_detects images : ∀ acc w,
  ∃ k : nat, (k ≤ length images)%nat
       ∧ detected (calls (process_images sv images acc w).2)
         = detected (calls w) ++ map data (take k images)
       ∧ match (process_images sv images acc w).1 with
         | Ok _ => k = length images
         | Raise _ => (0 < k)%nat
         end.
Proof.
  induction images as [|image_data rest IH]; intros acc w; simpl.
  - exists 0. by rewrite app_nil_r.
  - unfold bind.
    pose proof (process_image_detects image_data acc w) as Hone.
    destruct (process_image sv image_data acc w) as [[ps1|e] w1]; simpl in Hone.
    + destruct (IH ps1 w1) as (k & Hk & Hdet & Hres).
      exists (S k). split; [lia |]. split.
      * rewrite Hdet, Hone, <- app_assoc. done.
      * destruct (process_images sv rest ps1 w1) as [[ps|e] w2];
          simpl in *; lia.
    + exists 1. split; [simpl; lia |]. split; [| simpl; lia].
      simpl. by destruct rest.
Qed.

End Detection.

(** X14.  The detector sees the extracted images one by one, in the order
    of the extraction, each at most once.  When [process_file] returns it
    has seen all of them; when [process_file] raises, it has seen the
    images up to the one that failed and none after it. *)
Theorem images_are_examined_in_order {Image BBox : Type}
    (sv : Services Image BBox) (file_path : Path) (name : string)
    (w : World Image BBox) (images : list (ImageData Image)) :
  extract_images sv w file_path name = Ok images →
  ∃ k : nat, (k ≤ length images)%nat
       ∧ detected (calls (process_file sv file_path name w).2)
         = detected (calls w) ++ map data (take k images)
       ∧ match (process_file sv file_path name w).1 with
         | Ok _ => k = length images
         | Raise _ => (0 < k)%nat
         end.
Proof.
  intros Hext.
  destruct (process_images_detects sv images []
              (record_call (CallExtractImages file_path name) w))
    as (k & Hk & Hdet & Hres).
  exists k. split; [done |].
  destruct (process_images sv images []
              (record_call (CallExtractImages file_path name) w))
    as [[ps|e] w1] eqn:Eloop; simpl in Hdet, Hres.
  - assert (E : process_file sv file_path name w = (Ok ps, w1)).
    { unfold process_file, try_except, bind at 1, invoke at 1.
      by rewrite Hext, Eloop. }
    rewrite E. simpl. split; [| done].
    rewrite Hdet, detected_app. simpl. by rewrite app_nil_r.
  - rewrite (process_file_raises sv _ _ _ _ _ _ Hext Eloop).
    simpl. split; [| done].
    rewrite Hdet, detected_app. simpl. by rewrite app_nil_r.
Qed.

Lemma images_are_examined_in_order_witness :
  detected (calls (process_file (Demo.studio ["blank"; "cover"] [])
                     (0, "_book.zip") "book.zip" Demo.empty_world).2)
  = ["blank"; "cover"].
Proof.
  destruct (images_are_examined_in_order
              (Demo.studio ["blank"; "cover"] [])
              (0, "_book.zip") "book.zip" Demo.empty_world
              [ {| data := "blank" |}; {| data := "cover" |} ] eq_refl)
    as (k & _ & Hdet & Hres).
  assert (Hrun : (process_file (Demo.studio ["blank"; "cover"] [])
                    (0, "_book.zip") "book.zip" Demo.empty_world).1
                 = Ok [(0, ".png"); (1, ".png")])
    by (vm_compute; reflexivity).
  rewrite Hrun in Hres. subst k. rewrite Hdet. reflexivity.
Defined.

(** ** What the translation loop logs *)

Section Warnings.

Context {Image BBox : Type}.
Variable sv : Services Image BBox.
Implicit Types (w : World Image BBox) (region : Region BBox).

Lemma translate_region_log region w :
  ∃ w',
    translate_region sv region w
      = (Ok (appended_region region (translate sv w (text region))), w')
    ∧ log w' = log w ++
        option_list (translation_warning region (translate sv w (text region)))
    ∧ fs w' = fs w.
Proof.
  unfold translate_region, try_except, bind, invoke, ret, logger.
  destruct (translate sv w (text region)) as [s|e]; simpl;
    eexists; split; try reflexivity; simpl; by rewrite ?app_nil_r.
Qed.

Hypothesis stateless : stateless_translator sv.

Lemma translate_regions_log regions : ∀ acc w w0,
  ∃ w',
    translate_regions sv regions acc w
      = (Ok (acc ++ map (fun r => appended_region r (translate sv w0 (text r)))
                        regions), w')
    ∧ log w' = log w ++
        omap (fun r => translation_warning r (translate sv w0 (text r))) regions.
Proof.
  induction regions as [|region rest IH]; intros acc w w0; simpl.
  - exists w. by rewrite !app_nil_r.
  - destruct (translate_region_log region w) as (w1 & E1 & Hl1 & _).
    rewrite (stateless w w0) in E1, Hl1.
    destruct (IH (acc ++ [appended_region region (translate sv w0 (text region))])
                w1 w0) as (w' & E & Hl).
    exists w'. unfold bind. rewrite E1, E. split; [by rewrite <- app_assoc |].
    rewrite Hl, Hl1, <- app_assoc. f_equal.
    by destruct (translation_warning region (translate sv w0 (text region))).
Qed.

End Warnings.

(** X15.  With a translator whose answer depends on the text alone, the
    translation loop returns, region by region, the translated copy or the
    untouched region, and it logs one warning per failed translation, in
    the order of the regions, naming the text and the error; a translation
    that succeeds logs nothing. *)
Theorem failed_translations_are_logged {Image BBox : Type}
    (sv : Services Image BBox) (text_regions : list (Region BBox))
    (w : World Image BBox) :
  stateless_translator sv →
  ∃ w',
    translate_regions sv text_regions [] w
      = (Ok (map (fun r => appended_region r (translate sv w (text r)))
                 text_regions), w')
    ∧ log w' = log w ++
        omap (fun r => translation_warning r (translate sv w (text r)))
             text_regions.
Proof.
  intros Hst.
  destruct (translate_regions_log sv Hst text_regions [] w w) as (w' & E & Hl).
  by exists w'.
Qed.

Lemma failed_translations_are_logged_witness :
  stateless_translator (Demo.studio ["cover"] [])
  ∧ ∃ w',
      translate_regions (Demo.studio ["cover"] []) Demo.balloons []
        Demo.empty_world
      = (Ok [ {| text := "ar:hello"; bbox := (10, 10, 80, 20)%Z;
                 confidence := Some 1%Q |};
              Demo.region "bad" (10, 50, 80, 20)%Z ], w')
      ∧ log w'
        = [(WARNING, "Translation failed for text: bad, error: rate limit")].
Proof.
  assert (Hst : stateless_translator (Demo.studio ["cover"] []))
    by (intros w1 w2 t; reflexivity).
  split; [exact Hst |].
  destruct (failed_translations_are_logged (Demo.studio ["cover"] [])
              Demo.balloons Demo.empty_world Hst) as (w' & E & Hl).
  exists w'. split; [exact E | exact Hl].
Defined.

(** ** From the number of images to the response *)

(** X16.  When the detector, the inpainter and the renderer always answer
    and the extractor returns N images for an accepted upload, the request
    succeeds whatever the translator does: with exactly one image the
    response is the single file, and otherwise it is an archive of exactly
    N entries named [translated_1.png] to [translated_N.png]. *)
Theorem response_counts_the_images {Image BBox : Type}
    (sv : Services Image BBox) (request_files : gmap string FileStorage)
    (file : FileStorage) (w : World Image BBox)
    (images : list (ImageData Image)) :
  (∀ w image, is_ok (extract_text sv w image)) →
  (∀ w image regions, is_ok (remove_text sv w image regions)) →
  (∀ w image regions, is_ok (render_text sv w image regions)) →
  request_files !! "file" = Some file →
  has_allowed_extension (filename file) →
  name_fits sv file →
  extract_images sv (world_with_input sv file w) (temp_input sv file w)
    (input_name sv file) = Ok images →
  ∃ body name mimetype w',
    upload_file sv request_files w = (Ok (Attachment body name mimetype), w')
    ∧ match body with
      | FileBody _ _ => length images = 1
      | ZipBody entries =>
          length images ≠ 1
          ∧ length entries = length images
          ∧ entries.*1 = zip_names (length images)
      end.
Proof.
  intros Hdet Hin Hren Hfile Hallowed Hfit Hext.
  apply allowed_file_spec in Hallowed.
  destruct (process_file_total sv Hdet Hin Hren (temp_input sv file w)
              (input_name sv file) (world_with_input sv file w))
    as (ps & w2 & Hproc); [by eexists |].
  destruct (process_file_outputs sv _ _ _ _ _ _ Hext Hproc) as [Hlen _].
  destruct (decide (length ps = 1)) as [Hone | Hmany].
  - destruct ps as [|p [|? ?]]; try discriminate.
    destruct (upload_file_single sv _ _ _ _ _ Hfile Hallowed Hfit Hproc)
      as (img & w3 & _ & E & _).
    eexists _, _, _, w3. split; [exact E |]. simpl. by rewrite <- Hlen.
  - destruct (upload_file_archive sv _ _ _ _ _ Hfile Hallowed Hfit Hproc Hmany)
      as (cs & w3 & Hcs & E & _).
    eexists _, _, _, w3. split; [exact E |]. simpl.
    pose proof (Forall2_length _ _ _ Hcs) as Hl.
    assert (Hn : length (zip_names (length ps)) = length cs).
    { unfold zip_names. by rewrite length_map, length_seq. }
    split; [by rewrite <- Hlen |]. rewrite <- Hlen. split.
    + rewrite length_zip, Hn. lia.
    + apply fst_zip. lia.
Qed.

Lemma response_counts_the_images_witness :
  ∃ entries w',
    upload_file (Demo.studio ["cover"; "back"; "blank"] [])
      (Demo.request "book.cbr") Demo.empty_world
    = (Ok (Attachment (ZipBody entries) "translated_book.zip"
             (Some "application/zip")), w')
    ∧ entries.*1 = ["translated_1.png"; "translated_2.png"; "translated_3.png"].
Proof.
  destruct (response_counts_the_images
              (Demo.studio ["cover"; "back"; "blank"] [])
              (Demo.request "book.cbr") (Demo.upload "book.cbr")
              Demo.empty_world
              [ {| data := "cover" |}; {| data := "back" |};
                {| data := "blank" |} ])
    as (body & name & mimetype & w' & E & Hbody).
  - intros w image. simpl. destruct (bool_decide (image = "blank")); by eexists.
  - intros w image regions. by eexists.
  - intros w image regions. by eexists.
  - reflexivity.
  - exists "book", "cbr". split; [reflexivity |]. split; [reflexivity |].
    refine (bool_decide_unpack _ _). vm_compute. exact I.
  - reflexivity.
  - reflexivity.
  - assert (Hrun : (upload_file (Demo.studio ["cover"; "back"; "blank"] [])
                      (Demo.request "book.cbr") Demo.empty_world).1
                   = Ok (Attachment
                           (ZipBody
                              [("translated_1.png", PngImage "render:clean:cover");
                               ("translated_2.png", PngImage "render:clean:back");
                               ("translated_3.png", PngImage "blank")])
                           "translated_book.zip" (Some "application/zip")))
      by (vm_compute; reflexivity).
    rewrite E in Hrun. simpl in Hrun. injection Hrun as -> -> ->.
    simpl in Hbody. destruct Hbody as (_ & _ & Hnames).
    eexists _, w'. split; [exact E | exact Hnames].
Defined.

(** ** How a processing error is reported *)

Section Reporting.

Context {Image BBox : Type}.
Variable sv : Services Image BBox.
Implicit Types (w : World Image BBox).

Lemma process_file_raise_log file_path name w e w' :
  process_file sv file_path name w = (Raise e, w') →
  ∃ l, log w' = l ++ [(ERROR, "Error processing file " +:+ name +:+ ": " +:+ e)].
Proof.
  unfold process_file, try_except.
  destruct (bind _ _ w) as [[ps|e'] w1]; [discriminate |].
  unfold bind, logger, raise. simpl. intros [= <- <-]. simpl. eauto.
Qed.

End Reporting.

(** X17.  Whatever stage made [process_file] raise, the error is reported
    the same way: [process_file] logs it once with the name of the file,
    the handler logs it a second time, and the message flashed to the user
    is "Error processing file: " followed by the text of the exception as
    it was raised. *)
Theorem processing_errors_are_reported {Image BBox : Type}
    (sv : Services Image BBox) (request_files : gmap string FileStorage)
    (file : FileStorage) (w : World Image BBox) (e : string)
    (w2 : World Image BBox) :
  request_files !! "file" = Some file →
  has_allowed_extension (filename file) →
  name_fits sv file →
  process_file sv (temp_input sv file w) (input_name sv file)
    (world_with_input sv file w) = (Raise e, w2) →
  ∃ l w3,
    log w2 = l ++ [(ERROR, "Error processing file " +:+ input_name sv file
                           +:+ ": " +:+ e)]
    ∧ upload_file sv request_files w = (Ok (Redirect "index"), w3)
    ∧ log w3 = log w2 ++ [(ERROR, "Error processing file: " +:+ e)]
    ∧ flashes w3 = flashes w ++ ["Error processing file: " +:+ e].
Proof.
  intros Hfile Hallowed Hfit Hproc. apply allowed_file_spec in Hallowed.
  destruct (process_file_raise_log sv _ _ _ _ _ Hproc) as [l Hl].
  exists l.
  pose proof (process_file_outcome sv (temp_input sv file w)
                (input_name sv file) (world_with_input sv file w)) as Hout.
  rewrite Hproc in Hout. destruct Hout as (_ & Hfl & _). simpl in Hfl.
  eexists. split; [exact Hl |].
  split; [exact (upload_file_error_log sv _ _ _ _ _ Hfile Hallowed Hfit Hproc) |].
  simpl. split; [done |]. by rewrite Hfl.
Qed.

Lemma processing_errors_are_reported_witness :
  ∃ w3,
    upload_file (Demo.studio ["torn"] ["torn"]) (Demo.request "page.webp")
      Demo.empty_world = (Ok (Redirect "index"), w3)
    ∧ flashes w3 = ["Error processing file: inpaint failed"]
    ∧ last (log w3) = Some (ERROR, "Error processing file: inpaint failed").
Proof.
  destruct (process_file (Demo.studio ["torn"] ["torn"])
              (temp_input (Demo.studio ["torn"] ["torn"])
                 (Demo.upload "page.webp") Demo.empty_world)
              (input_name (Demo.studio ["torn"] ["torn"])
                 (Demo.upload "page.webp"))
              (world_with_input (Demo.studio ["torn"] ["torn"])
                 (Demo.upload "page.webp") Demo.empty_world))
    as [r w2] eqn:Hproc.
  assert (Hr : r = Raise "inpaint failed").
  { apply (f_equal fst) in Hproc. simpl in Hproc. rewrite <- Hproc.
    vm_compute. reflexivity. }
  subst r.
  destruct (processing_errors_are_reported (Demo.studio ["torn"] ["torn"])
              (Demo.request "page.webp") (Demo.upload "page.webp")
              Demo.empty_world "inpaint failed" w2 eq_refl)
    as (l & w3 & _ & E & Hlog & Hfl).
  - exists "page", "webp". split; [reflexivity |]. split; [reflexivity |].
    refine (bool_decide_unpack _ _). vm_compute. exact I.
  - reflexivity.
  - exact Hproc.
  - exists w3. split; [exact E |]. split; [exact Hfl |].
    rewrite Hlog. apply last_snoc.
Defined.

(** * The output bundle *)

(** ** Images without text *)

(** C6.  When detection returns no region for an image of an accepted
    upload, the image is not translated, inpainted or rendered: the only
    service call made for it is the detection.  The original image is saved
    as PNG under a fresh temporary name, which is appended to the list of
    processed files.  When the images after it are processed too, the list
    that [process_file] returns has one path per image and holds that path
    at the rank of the image, and the response carries the original image,
    as PNG, at that rank. *)
Theorem image_without_text_is_passed_through {Image BBox : Type}
    (sv : Services Image BBox) (request_files : gmap string FileStorage)
    (file : FileStorage) (w : World Image BBox)
    (images1 : list (ImageData Image)) (image : ImageData Image)
    (images2 : list (ImageData Image)) (done_files : list Path)
    (w1 : World Image BBox) :
  request_files !! "file" = Some file →
  has_allowed_extension (filename file) →
  name_fits sv file →
  extract_images sv (world_with_input sv file w) (temp_input sv file w)
    (input_name sv file) = Ok (images1 ++ image :: images2) →
  process_images sv images1 [] (loop_start sv file w) = (Ok done_files, w1) →
  extract_text sv w1 (data image) = Ok [] →
  fs w1 !! fresh_path (fs w1) ".png" = None
  ∧ ∃ w2,
      process_image sv image done_files w1
        = (Ok (done_files ++ [fresh_path (fs w1) ".png"]), w2)
      ∧ fs w2 = <[fresh_path (fs w1) ".png" := PngImage (data image)]> (fs w1)
      ∧ calls w2 = calls w1 ++ [CallExtractText (data image)]
      ∧ log w2 = log w1 ∧ flashes w2 = flashes w1
      ∧ ∀ ps w',
          process_images sv images2 (done_files ++ [fresh_path (fs w1) ".png"])
            w2 = (Ok ps, w') →
          process_file sv (temp_input sv file w) (input_name sv file)
            (world_with_input sv file w) = (Ok ps, w')
          ∧ length ps = length (images1 ++ image :: images2)
          ∧ ps !! length images1 = Some (fresh_path (fs w1) ".png")
          ∧ fs w' !! fresh_path (fs w1) ".png" = Some (PngImage (data image))
          ∧ ∃ body name mimetype w3,
              upload_file sv request_files w
                = (Ok (Attachment body name mimetype), w3)
              ∧ flashes w3 = flashes w
              ∧ match body with
                | FileBody q c =>
                    ps = [fresh_path (fs w1) ".png"]
                    ∧ q = fresh_path (fs w1) ".png"
                    ∧ c = PngImage (data image)
                | ZipBody entries =>
                    length ps ≠ 1
                    ∧ length entries = length ps
                    ∧ entries !! length images1
                      = Some ("translated_"
                              +:+ PyStr.str_of_nat (length images1 + 1)
                              +:+ ".png", PngImage (data image))
                end.
Proof.
  intros Hfile Hallowed Hfit Hext Hbefore Hnone.
  apply allowed_file_spec in Hallowed.
  split; [apply fresh_path_fresh |].
  pose proof (process_image_blank sv image done_files w1 Hnone) as Himg.
  eexists. split; [exact Himg |]. simpl.
  split; [done |]. split; [done |]. split; [done |]. split; [done |].
  intros ps w' Hafter.
  pose proof (process_file_through sv _ _ _ _ _ _ _ _ _ _ Hext Hbefore Himg
                _ _ Hafter) as (Hproc & Hrank & Hcount & Hkeep).
  assert (Hp : fs w' !! fresh_path (fs w1) ".png" = Some (PngImage (data image)))
    by (apply Hkeep; simpl; apply lookup_insert_eq).
  split; [exact Hproc |]. split; [exact Hcount |]. split; [exact Hrank |].
  split; [exact Hp |].
  exact (delivered_image sv _ _ _ _ _ _ _ _ Hfile Hallowed Hfit Hproc Hrank Hp).
Qed.

Lemma image_without_text_is_passed_through_witness :
  extract_text (Demo.studio ["cover"; "blank"] [])
    (process_images (Demo.studio ["cover"; "blank"] []) [ {| data := "cover" |} ]
       [] (loop_start (Demo.studio ["cover"; "blank"] [])
             (Demo.upload "book.pdf") Demo.empty_world)).2
    "blank" = Ok []
  ∧ ∃ entries name mimetype w3,
      upload_file (Demo.studio ["cover"; "blank"] []) (Demo.request "book.pdf")
        Demo.empty_world
      = (Ok (Attachment (ZipBody entries) name mimetype), w3)
      ∧ length entries = 2
      ∧ entries !! 1 = Some ("translated_2.png", PngImage "blank").
Proof.
  split; [reflexivity |].
  destruct (process_images (Demo.studio ["cover"; "blank"] [])
              [ {| data := "cover" |} ] []
              (loop_start (Demo.studio ["cover"; "blank"] [])
                 (Demo.upload "book.pdf") Demo.empty_world))
    as [r w1] eqn:Hbefore.
  assert (Hr : r = Ok [(1, ".png")]).
  { apply (f_equal fst) in Hbefore. simpl in Hbefore. rewrite <- Hbefore.
    vm_compute. reflexivity. }
  subst r.
  assert (Hfresh : fresh_path (fs w1) ".png" = (2, ".png")).
  { apply (f_equal (fun x => fresh_path (fs x.2) ".png")) in Hbefore.
    simpl in Hbefore. rewrite <- Hbefore. vm_compute. reflexivity. }
  assert (Hext : has_allowed_extension (filename (Demo.upload "book.pdf"))).
  { exists "book", "pdf". split; [reflexivity |]. split; [reflexivity |].
    refine (bool_decide_unpack _ _). vm_compute. exact I. }
  destruct (image_without_text_is_passed_through
              (Demo.studio ["cover"; "blank"] []) (Demo.request "book.pdf")
              (Demo.upload "book.pdf") Demo.empty_world
              [ {| data := "cover" |} ] {| data := "blank" |} []
              [(1, ".png")] w1 eq_refl Hext eq_refl eq_refl Hbefore eq_refl)
    as (_ & w2 & _ & _ & _ & _ & _ & Hreq).
  destruct (Hreq _ w2 eq_refl)
    as (_ & _ & _ & _ & body & name & mimetype & w3 & E & _ & Hbody).
  destruct body as [q c | entries].
  - exfalso. destruct Hbody as (Hps & _). discriminate.
  - destruct Hbody as (_ & Hlen & Hentry).
    exists entries, name, mimetype, w3. split; [exact E |].
    split; [exact Hlen | exact Hentry].
Defined.

(** ** A success carries a bundle *)


